(** * Rate limiter API: admission engine and middleware

    A shallow embedding of the Go packages [config], [database], [redis],
    [services] and [middleware] of the rate limiter, followed by the
    properties of the admission pipeline.

    Conventions.
    - Go's [int], [int64] and [time.Duration] are 64-bit two's complement
      integers; they are values of [Z], and every operation that can leave
      the range is written with its wrap-around ([wrap64]).
    - [time.Time] is an instant in nanoseconds on an unbounded time line;
      [time.Now()] is an input of the function that reads the clock.
    - Go's [error] is its message; a [(value, error)] pair is a [result].
    - Go strings are byte strings: [string] of 8-bit [ascii]. *)

From stdpp Require Import gmap strings list.
From Stdlib Require Import ZArith Lia Ascii.
From Stdlib Require DecimalString HexadecimalString DecimalZ HexadecimalZ.

Local Open Scope string_scope.
Local Open Scope Z_scope.

(** ** Machine integers, durations and instants *)

Definition int64_min : Z := - 2 ^ 63.
Definition int64_max : Z := 2 ^ 63 - 1.

Definition in_int64 (x : Z) : Prop := int64_min <= x <= int64_max.

(** Two's complement reduction of an integer to 64 bits. *)
Definition wrap64 (x : Z) : Z := (x + 2 ^ 63) mod 2 ^ 64 - 2 ^ 63.

Definition sub64 (a b : Z) : Z := wrap64 (a - b).
Definition mul64 (a b : Z) : Z := wrap64 (a * b).

(** [time.Duration]: a signed 64-bit count of nanoseconds. *)
Abbreviation Duration := Z (only parsing).
(** [time.Time], as nanoseconds since an arbitrary origin. *)
Abbreviation Time := Z (only parsing).

Definition Second : Duration := 1000000000.
Definition Hour : Duration := 3600 * Second.

(** [t.Add(d)]. *)
Definition Time_Add (t : Time) (d : Duration) : Time := t + d.

(** [t.Sub(u)]: the difference, saturated to the range of [Duration]. *)
Definition Time_Sub (t u : Time) : Duration :=
  let d := t - u in
  if d <? int64_min then int64_min
  else if int64_max <? d then int64_max
  else d.

(** [time.Until(t)], the clock showing [now]. *)
Definition Until (now t : Time) : Duration := Time_Sub t now.

(** [int(d.Seconds())]. [Seconds] returns [float64(d / Second) +
    float64(d % Second) / 1e9] and the conversion to [int] drops the
    fraction; this is the quotient truncated toward zero (the floating
    point sum is exact enough for that whenever [|d|] is below 2^24
    seconds, about 194 days). *)
Definition Seconds_int (d : Duration) : Z := Z.quot d Second.

(** ** Errors and results *)

Abbreviation error := string (only parsing).

Inductive result (A : Type) : Type :=
| Ok (a : A)
| Err (e : error).
Arguments Ok {A} a.
Arguments Err {A} e.

Definition is_Ok {A} (r : result A) : bool :=
  match r with Ok _ => true | Err _ => false end.

(** [fmt.Errorf(msg ++ ": %w", err)]. *)
Definition wrap_error (msg : string) (err : error) : error :=
  msg ++ ": " ++ err.

(** ** SHA-256 (crypto/sha256), on 32-bit words held in [Z] *)

Module sha256.

Definition mask32 : Z := 2 ^ 32 - 1.
Definition add32 (a b : Z) : Z := (a + b) mod 2 ^ 32.
Definition not32 (a : Z) : Z := Z.lxor a mask32.
Definition rotr (n x : Z) : Z :=
  Z.lor (Z.shiftr x n) (Z.land (Z.shiftl x (32 - n)) mask32).

Definition Ch (x y z : Z) : Z := Z.lxor (Z.land x y) (Z.land (not32 x) z).
Definition Maj (x y z : Z) : Z :=
  Z.lxor (Z.lxor (Z.land x y) (Z.land x z)) (Z.land y z).
Definition bsig0 (x : Z) : Z := Z.lxor (Z.lxor (rotr 2 x) (rotr 13 x)) (rotr 22 x).
Definition bsig1 (x : Z) : Z := Z.lxor (Z.lxor (rotr 6 x) (rotr 11 x)) (rotr 25 x).
Definition ssig0 (x : Z) : Z := Z.lxor (Z.lxor (rotr 7 x) (rotr 18 x)) (Z.shiftr x 3).
Definition ssig1 (x : Z) : Z := Z.lxor (Z.lxor (rotr 17 x) (rotr 19 x)) (Z.shiftr x 10).

(** The round constants, in decimal. *)
Definition K : list Z :=
  [ 1116352408; 1899447441; 3049323471; 3921009573;
    961987163; 1508970993; 2453635748; 2870763221;
    3624381080; 310598401; 607225278; 1426881987;
    1925078388; 2162078206; 2614888103; 3248222580;
    3835390401; 4022224774; 264347078; 604807628;
    770255983; 1249150122; 1555081692; 1996064986;
    2554220882; 2821834349; 2952996808; 3210313671;
    3336571891; 3584528711; 113926993; 338241895;
    666307205; 773529912; 1294757372; 1396182291;
    1695183700; 1986661051; 2177026350; 2456956037;
    2730485921; 2820302411; 3259730800; 3345764771;
    3516065817; 3600352804; 4094571909; 275423344;
    430227734; 506948616; 659060556; 883997877;
    958139571; 1322822218; 1537002063; 1747873779;
    1955562222; 2024104815; 2227730452; 2361852424;
    2428436474; 2756734187; 3204031479; 3329325298 ].

(** The eight working variables, and the chaining value. *)
Record state : Type := State {
  sa : Z; sb : Z; sc : Z; sd : Z; se : Z; sf : Z; sg : Z; sh : Z }.

Definition init : state :=
  {| sa := 1779033703; sb := 3144134277; sc := 1013904242; sd := 2773480762;
     se := 1359893119; sf := 2600822924; sg := 528734635; sh := 1541459225 |}.

(** Padding: a 1 bit, zeros up to 56 mod 64, the bit length on 8 bytes. *)
Definition be_bytes (n : nat) (x : Z) : list Z :=
  map (fun i => Z.land (Z.shiftr x (8 * Z.of_nat i)) 255) (rev (seq 0 n)).

Definition pad (msg : list Z) : list Z :=
  let len := Z.of_nat (length msg) in
  let zeros := Z.to_nat ((55 - len) mod 64) in
  (msg ++ 128 :: repeat 0 zeros ++ be_bytes 8 (8 * len))%list.

Fixpoint words (n : nat) (bs : list Z) : list Z :=
  match n, bs with
  | S n', b0 :: b1 :: b2 :: b3 :: rest =>
      (Z.shiftl b0 24 + Z.shiftl b1 16 + Z.shiftl b2 8 + b3) :: words n' rest
  | _, _ => []
  end.

(** Message schedule, most recent word first: [w] holds W[t-1], W[t-2], ... *)
Fixpoint schedule (n : nat) (w : list Z) : list Z :=
  match n with
  | O => w
  | S n' =>
      let x := add32 (add32 (ssig1 (nth 1 w 0)) (nth 6 w 0))
                     (add32 (ssig0 (nth 14 w 0)) (nth 15 w 0)) in
      schedule n' (x :: w)
  end.

Definition round (s : state) (kw : Z * Z) : state :=
  let (k, w) := kw in
  let t1 := add32 (add32 (add32 (sh s) (bsig1 (se s))) (Ch (se s) (sf s) (sg s)))
                  (add32 k w) in
  let t2 := add32 (bsig0 (sa s)) (Maj (sa s) (sb s) (sc s)) in
  State (add32 t1 t2) (sa s) (sb s) (sc s) (add32 (sd s) t1) (se s) (sf s) (sg s).

Definition block (h : state) (bs : list Z) : state :=
  let w := rev (schedule 48 (rev (words 16 bs))) in
  let s := fold_left round (combine K w) h in
  State (add32 (sa h) (sa s)) (add32 (sb h) (sb s))
        (add32 (sc h) (sc s)) (add32 (sd h) (sd s))
        (add32 (se h) (se s)) (add32 (sf h) (sf s))
        (add32 (sg h) (sg s)) (add32 (sh h) (sh s)).

Fixpoint blocks (n : nat) (h : state) (bs : list Z) : state :=
  match n with
  | O => h
  | S n' => blocks n' (block h (take 64 bs)) (drop 64 bs)
  end.

Definition digest_words (h : state) : list Z :=
  [sa h; sb h; sc h; sd h; se h; sf h; sg h; sh h].

(** [sha256.Sum256]: the 32 bytes of the digest. *)
Definition Sum256 (msg : list Z) : list Z :=
  let p := pad msg in
  let h := blocks (length p / 64)%nat init p in
  flat_map (be_bytes 4) (digest_words h).

End sha256.

(** [[]byte(s)]. *)
Fixpoint bytes_of_string (s : string) : list Z :=
  match s with
  | EmptyString => []
  | String a rest => Z.of_N (N_of_ascii a) :: bytes_of_string rest
  end.

Definition hex_digit (d : Z) : ascii :=
  if d <? 10 then ascii_of_N (Z.to_N (48 + d)) else ascii_of_N (Z.to_N (87 + d)).

(** [fmt.Sprintf("%x", bytes)]: two lowercase hexadecimal digits per byte. *)
Fixpoint hex_of_bytes (bs : list Z) : string :=
  match bs with
  | [] => EmptyString
  | b :: rest =>
      String (hex_digit (Z.shiftr b 4)) (String (hex_digit (Z.land b 15)) (hex_of_bytes rest))
  end.

Example sha256_abc :
  hex_of_bytes (sha256.Sum256 (bytes_of_string "abc"))
  = "ba7816bf8f01cfea414140de5dae2223b00361a396177a9cb410ff61f20015ad".
Proof. vm_compute. reflexivity. Qed.

Example sha256_empty :
  hex_of_bytes (sha256.Sum256 (bytes_of_string ""))
  = "e3b0c44298fc1c149afbf4c8996fb92427ae41e4649b934ca495991b7852b855".
Proof. vm_compute. reflexivity. Qed.

(** ** Package config *)

Module config.

Record RateLimitConfig : Type := {
  DefaultRequests : Z;
  DefaultWindow : Duration }.

(** The values [Load] yields when the environment sets neither variable. *)
Definition Load_defaults : RateLimitConfig :=
  {| DefaultRequests := 100; DefaultWindow := Hour |}.

End config.

(** ** Package database *)

Module database.

Record APIKey : Type := {
  ID : string;
  KeyHash : string;
  Name : string;
  RateLimitRequests : Z;
  RateLimitWindowSeconds : Z;
  IsActive : bool;
  CreatedAt : Time;
  UpdatedAt : Time }.

(** The columns [rate_limit_requests] and [rate_limit_window_seconds] of
    [api_keys] are declared [INTEGER] by [InitSchema]: 32-bit signed. *)
Definition pg_integer (x : Z) : Prop := - 2 ^ 31 <= x < 2 ^ 31.

Definition schema_ok (k : APIKey) : Prop :=
  pg_integer (RateLimitRequests k) /\ pg_integer (RateLimitWindowSeconds k).

(** The connection and the [api_keys] table. [fault = Some e] is a
    database that cannot be reached: every statement fails with [e]. *)
Record DB : Type := {
  fault : option error;
  api_keys : list APIKey }.

Inductive sql_error : Type :=
| ErrNoRows
| ErrDriver (e : error).

Definition sql_message (e : sql_error) : error :=
  match e with
  | ErrNoRows => "sql: no rows in result set"
  | ErrDriver m => m
  end.

(** [db.QueryRow("SELECT ... FROM api_keys WHERE <where>").Scan(...)]:
    the first row the condition selects. *)
Definition QueryRow_Scan (db : DB) (where_ : APIKey -> bool) : APIKey + sql_error :=
  match fault db with
  | Some e => inr (ErrDriver e)
  | None =>
      match List.find where_ (api_keys db) with
      | Some row => inl row
      | None => inr ErrNoRows
      end
  end.

(** [sql.Result]. *)
Record Result : Type := { RowsAffected : result Z }.

(** [db.Exec("UPDATE api_keys SET <set> WHERE <where>")]: every selected
    row is rewritten, and counted whether or not it changes. *)
Definition Exec_update (db : DB) (set_ : APIKey -> APIKey) (where_ : APIKey -> bool)
  : DB * result Result :=
  match fault db with
  | Some e => (db, Err e)
  | None =>
      let rows := map (fun r => if where_ r then set_ r else r) (api_keys db) in
      let n := Z.of_nat (length (List.filter where_ (api_keys db))) in
      ({| fault := None; api_keys := rows |}, Ok {| RowsAffected := Ok n |})
  end.

End database.

(** ** Package redis *)

Module redis.

(** [ClientInterface]: the two operations the rate limiter needs of its
    counter store. The store is a value [c : C]; an operation that
    changes it returns the new store. [now] is the instant of the call. *)
Class ClientInterface (C : Type) : Type := {
  IncrementRateLimit : C -> Time -> string -> Duration -> C * result Z;
  GetRateLimitCount : C -> Time -> string -> result Z }.

(** A key of the server: its integer value and, when it has one, the
    instant at which it expires. *)
Record entry : Type := {
  val : Z;
  expireAt : option Time }.

(** The server behind a [Client]. *)
Record Client : Type := {
  reachable : bool;
  keys : gmap string entry }.

Definition live (now : Time) (e : entry) : bool :=
  match expireAt e with
  | None => true
  | Some t => now <? t
  end.

(** A key that has expired is gone. *)
Definition lookup_live (db : gmap string entry) (now : Time) (key : string) : option entry :=
  match db !! key with
  | Some e => if live now e then Some e else None
  | None => None
  end.

(** [INCR key]: an absent key counts from 0 and has no expiry; the value
    cannot pass the largest 64-bit integer; an expiry is kept. *)
Definition Incr (db : gmap string entry) (now : Time) (key : string)
  : gmap string entry * result Z :=
  match lookup_live db now key with
  | None => (<[key := {| val := 1; expireAt := None |}]> db, Ok 1)
  | Some e =>
      if val e =? int64_max
      then (db, Err "ERR increment or decrement would overflow")
      else (<[key := {| val := val e + 1; expireAt := expireAt e |}]> db, Ok (val e + 1))
  end.

(** [EXPIRE key window]: sets the expiry of an existing key to [window]
    from now, replacing the one it had; reports whether the key exists. *)
Definition Expire (db : gmap string entry) (now : Time) (key : string) (window : Duration)
  : gmap string entry * result bool :=
  match lookup_live db now key with
  | None => (db, Ok false)
  | Some e => (<[key := {| val := val e; expireAt := Some (now + window) |}]> db, Ok true)
  end.

(** [GET key], read as an integer. *)
Definition Get_Int64 (db : gmap string entry) (now : Time) (key : string) : result Z :=
  match lookup_live db now key with
  | None => Err "redis: nil"
  | Some e => Ok (val e)
  end.

Definition connection_error : error := "dial tcp: connection refused".

(** [pipe.Exec]'s error: the first failed command's. *)
Definition first_error {A B} (r1 : result A) (r2 : result B) : option error :=
  match r1, r2 with
  | Err e, _ => Some e
  | Ok _, Err e => Some e
  | Ok _, Ok _ => None
  end.

Definition Client_IncrementRateLimit (c : Client) (now : Time) (key : string)
    (window : Duration) : Client * result Z :=
  if reachable c then
    (* Increment counter *)
    let '(db1, incr) := Incr (keys c) now key in
    (* Set expiration *)
    let '(db2, expire) := Expire db1 now key window in
    (* Execute pipeline *)
    let c' := {| reachable := true; keys := db2 |} in
    match first_error incr expire with
    | Some err => (c', Err err)
    | None => (c', incr)
    end
  else (c, Err connection_error).

Definition Client_GetRateLimitCount (c : Client) (now : Time) (key : string) : result Z :=
  if reachable c then Get_Int64 (keys c) now key else Err connection_error.

#[export] Instance Client_ClientInterface : ClientInterface Client := {
  IncrementRateLimit := Client_IncrementRateLimit;
  GetRateLimitCount := Client_GetRateLimitCount }.

(** The test double of the service tests: it answers what it was told to. *)
Record MockRedisClient : Type := {
  on_IncrementRateLimit : string -> Duration -> result Z;
  on_GetRateLimitCount : string -> result Z }.

#[export] Instance Mock_ClientInterface : ClientInterface MockRedisClient := {
  IncrementRateLimit m _ key window := (m, on_IncrementRateLimit m key window);
  GetRateLimitCount m _ key := on_GetRateLimitCount m key }.

End redis.

(** ** Package services *)

Module services.
Import config database redis.

(** *** rate_limit_service.go *)

Record RateLimitService (C : Type) : Type := {
  redisClient : C;
  config : RateLimitConfig }.
Arguments redisClient {C} _.
Arguments config {C} _.

Record RateLimitResult : Type := {
  Allowed : bool;
  Remaining : Z;
  ResetTime : Time;
  Limit : Z }.

Definition redisKey (apiKey : APIKey) : string := "rate_limit:" ++ ID apiKey.

Definition CheckRateLimit {C} `{ClientInterface C}
    (s : RateLimitService C) (now : Time) (apiKey : APIKey)
  : RateLimitService C * result RateLimitResult :=
  (* Get rate limit configuration from API key or use defaults *)
  let limit := RateLimitRequests apiKey in
  let window := mul64 (RateLimitWindowSeconds apiKey) Second in
  let limit := if limit <=? 0 then DefaultRequests (config s) else limit in
  let window := if window <=? 0 then DefaultWindow (config s) else window in
  (* Increment counter and get current count *)
  let '(c, r) := IncrementRateLimit (redisClient s) now (redisKey apiKey) window in
  let s' := {| redisClient := c; config := config s |} in
  match r with
  | Err err => (s', Err (wrap_error "failed to check rate limit" err))
  | Ok currentCount =>
      (* Check if limit exceeded *)
      let allowed := currentCount <=? limit in
      let remaining := sub64 limit currentCount in
      let remaining := if remaining <? 0 then 0 else remaining in
      (* Calculate reset time *)
      let resetTime := Time_Add now window in
      (s', Ok {| Allowed := allowed; Remaining := remaining;
                 ResetTime := resetTime; Limit := limit |})
  end.

Definition GetRateLimitStatus {C} `{ClientInterface C}
    (s : RateLimitService C) (now : Time) (apiKey : APIKey)
  : result RateLimitResult :=
  (* Get current count without incrementing *)
  let currentCount :=
    match GetRateLimitCount (redisClient s) now (redisKey apiKey) with
    | Ok n => n
    | Err _ => 0 (* If key doesn't exist, count is 0 *)
    end in
  (* Get rate limit configuration *)
  let limit := RateLimitRequests apiKey in
  let window := mul64 (RateLimitWindowSeconds apiKey) Second in
  let limit := if limit <=? 0 then DefaultRequests (config s) else limit in
  let window := if window <=? 0 then DefaultWindow (config s) else window in
  let allowed := currentCount <? limit in
  let remaining := sub64 limit currentCount in
  let remaining := if remaining <? 0 then 0 else remaining in
  let resetTime := Time_Add now window in
  Ok {| Allowed := allowed; Remaining := remaining;
        ResetTime := resetTime; Limit := limit |}.

(** *** api_key_service.go *)

Record APIKeyService : Type := { db : DB }.

Definition hashAPIKey (apiKey : string) : string :=
  let hash := sha256.Sum256 (bytes_of_string apiKey) in
  hex_of_bytes hash.

Definition ValidateAPIKey (s : APIKeyService) (apiKey : string) : result APIKey :=
  let keyHash := hashAPIKey apiKey in
  (* WHERE key_hash = $1 AND is_active = true *)
  match QueryRow_Scan (db s) (fun r => String.eqb (KeyHash r) keyHash && IsActive r) with
  | inl apiKeyRecord => Ok apiKeyRecord
  | inr ErrNoRows => Err "invalid API key"
  | inr err => Err (wrap_error "failed to validate API key" (sql_message err))
  end.

Definition deactivated (now : Time) (r : APIKey) : APIKey :=
  {| ID := ID r; KeyHash := KeyHash r; Name := Name r;
     RateLimitRequests := RateLimitRequests r;
     RateLimitWindowSeconds := RateLimitWindowSeconds r;
     IsActive := false; CreatedAt := CreatedAt r; UpdatedAt := now |}.

(** The error is [None] for Go's [nil]. *)
Definition DeactivateAPIKey (s : APIKeyService) (now : Time) (apiKey : string)
  : APIKeyService * option error :=
  let keyHash := hashAPIKey apiKey in
  (* UPDATE api_keys SET is_active = false, updated_at = NOW() WHERE key_hash = $1 *)
  let '(db', r) := Exec_update (db s) (deactivated now)
                               (fun r => String.eqb (KeyHash r) keyHash) in
  let s' := {| db := db' |} in
  match r with
  | Err err => (s', Some (wrap_error "failed to deactivate API key" err))
  | Ok result =>
      match RowsAffected result with
      | Err err => (s', Some (wrap_error "failed to get rows affected" err))
      | Ok rowsAffected =>
          if rowsAffected =? 0 then (s', Some "API key not found")
          else (s', None)
      end
  end.

End services.

(** ** Package middleware *)

Module middleware.
Import config database redis services.

Record Request : Type := {
  Path : string;
  Header : gmap string string }.

(** [c.GetHeader(name)]: the empty string when the header is absent. *)
Definition GetHeader (req : Request) (name : string) : string :=
  default "" (Header req !! name).

Definition HasPrefix (s p : string) : bool := String.prefix p s.

Definition TrimPrefix (s p : string) : string :=
  if HasPrefix s p
  then String.substring (String.length p) (String.length s - String.length p) s
  else s.

(** A value of a [gin.H] body. *)
Inductive value : Type :=
| VString (s : string)
| VInt (n : Z).

(** A response header, before it is printed: [strconv.FormatInt(n, 10)]
    or [t.Format(time.RFC3339)]. *)
Inductive header_value : Type :=
| HInt (n : Z)
| HTime (t : Time).

(** What the middleware has done to the [gin.Context]. *)
Record Context : Type := {
  Status : option Z;                       (* c.JSON(code, ...) *)
  Body : list (string * value);            (* c.JSON(..., gin.H{...}) *)
  ResponseHeader : list (string * header_value);   (* c.Header(...) *)
  Aborted : bool;                          (* c.Abort() *)
  NextCalled : bool;                       (* c.Next() *)
  api_key : option APIKey }.               (* c.Set("api_key", ...) *)

Definition StatusUnauthorized : Z := 401.
Definition StatusTooManyRequests : Z := 429.
Definition StatusInternalServerError : Z := 500.

Definition reject (code : Z) (body : list (string * value))
    (headers : list (string * header_value)) : Context :=
  {| Status := Some code; Body := body; ResponseHeader := headers;
     Aborted := true; NextCalled := false; api_key := None |}.

Definition proceed (headers : list (string * header_value))
    (key : option APIKey) : Context :=
  {| Status := None; Body := []; ResponseHeader := headers;
     Aborted := false; NextCalled := true; api_key := key |}.

(** The handler [RateLimit] returns, run on one request. [now] is the
    clock when the rate limit is checked, [later] the clock when
    [time.Until] reads it for [retry_after]. *)
Definition RateLimit {C} `{ClientInterface C}
    (apiKeyService : APIKeyService) (rateLimitService : RateLimitService C)
    (now later : Time) (req : Request)
  : RateLimitService C * Context :=
  (* Skip rate limiting for health check endpoints *)
  if String.eqb (Path req) "/health" || String.eqb (Path req) "/metrics"
  then (rateLimitService, proceed [] None)
  else
    (* Get API key from header *)
    let apiKey := GetHeader req "X-API-Key" in
    let apiKey :=
      if String.eqb apiKey "" then
        (* Try Authorization header as fallback *)
        let authHeader := GetHeader req "Authorization" in
        if negb (String.eqb authHeader "") && HasPrefix authHeader "Bearer "
        then TrimPrefix authHeader "Bearer "
        else apiKey
      else apiKey in
    if String.eqb apiKey "" then
      (rateLimitService,
       reject StatusUnauthorized
         [("error", VString "API key required");
          ("message", VString "Please provide an API key in the X-API-Key header or Authorization header")]
         [])
    else
      (* Validate API key *)
      match ValidateAPIKey apiKeyService apiKey with
      | Err _ =>
          (rateLimitService,
           reject StatusUnauthorized
             [("error", VString "Invalid API key");
              ("message", VString "The provided API key is invalid or inactive")]
             [])
      | Ok apiKeyRecord =>
          (* Check rate limit *)
          match CheckRateLimit rateLimitService now apiKeyRecord with
          | (svc, Err _) =>
              (svc,
               reject StatusInternalServerError
                 [("error", VString "Rate limit check failed");
                  ("message", VString "Unable to check rate limit")]
                 [])
          | (svc, Ok rateLimitResult) =>
              (* Add rate limit headers *)
              let headers :=
                [("X-RateLimit-Limit", HInt (Limit rateLimitResult));
                 ("X-RateLimit-Remaining", HInt (Remaining rateLimitResult));
                 ("X-RateLimit-Reset", HTime (ResetTime rateLimitResult))] in
              (* Check if rate limit exceeded *)
              if negb (Allowed rateLimitResult) then
                (svc,
                 reject StatusTooManyRequests
                   [("error", VString "Rate limit exceeded");
                    ("message", VString "You have exceeded your rate limit. Please try again later.");
                    ("retry_after", VInt (Seconds_int (Until later (ResetTime rateLimitResult))))]
                   headers)
              else
                (* Store API key info in context for use in handlers *)
                (svc, proceed headers (Some apiKeyRecord))
          end
      end.

End middleware.

(** * Properties *)

Import config database redis services middleware.

(** ** 64-bit arithmetic *)

Lemma wrap64_id (x : Z) : in_int64 x -> wrap64 x = x.
Proof.
  unfold in_int64, int64_min, int64_max, wrap64. intros Hx.
  rewrite Z.mod_small by lia. lia.
Qed.

Lemma wrap64_range (x : Z) : in_int64 (wrap64 x).
Proof.
  unfold in_int64, int64_min, int64_max, wrap64.
  pose proof (Z.mod_pos_bound (x + 2 ^ 63) (2 ^ 64) ltac:(lia)). lia.
Qed.

Lemma sub64_exact (a b : Z) : in_int64 (a - b) -> sub64 a b = a - b.
Proof. apply wrap64_id. Qed.


Lemma pg_integer_int64 (x : Z) : pg_integer x -> in_int64 x.
Proof. unfold pg_integer, in_int64, int64_min, int64_max. lia. Qed.

(** The clamp of lines 56-59 and 94-97 is [max 0]. *)
Lemma clamp_max (x : Z) : (if x <? 0 then 0 else x) = Z.max 0 x.
Proof. destruct (Z.ltb_spec x 0); lia. Qed.

(** ** The effective quota, in the words of the specification

    "Credential's own values if positive, else the process-wide defaults." *)

Definition effective_limit (cfg : RateLimitConfig) (k : APIKey) : Z :=
  if 0 <? RateLimitRequests k then RateLimitRequests k else DefaultRequests cfg.

Definition effective_window (cfg : RateLimitConfig) (k : APIKey) : Duration :=
  if 0 <? RateLimitWindowSeconds k
  then RateLimitWindowSeconds k * Second
  else DefaultWindow cfg.

Lemma code_limit (cfg : RateLimitConfig) (k : APIKey) :
  (if RateLimitRequests k <=? 0 then DefaultRequests cfg else RateLimitRequests k)
  = effective_limit cfg k.
Proof.
  unfold effective_limit.
  destruct (Z.leb_spec (RateLimitRequests k) 0), (Z.ltb_spec 0 (RateLimitRequests k)); lia.
Qed.


(** ** The admission engine *)

Section RateLimitService_properties.

Context {C : Type} `{!ClientInterface C}.
Implicit Types (s t : RateLimitService C) (k : APIKey) (now : Time) (count : Z).

(** What [CheckRateLimit] returns when the store answers [count]. *)
Lemma CheckRateLimit_Ok s now k count :
  (forall w, (IncrementRateLimit (redisClient s) now (redisKey k) w).2 = Ok count) ->
  exists r,
    (CheckRateLimit s now k).2 = Ok r /\
    Limit r = effective_limit (config s) k /\
    Allowed r = (count <=? Limit r) /\
    Remaining r = Z.max 0 (sub64 (Limit r) count).
Proof.
  intros Hincr. unfold CheckRateLimit.
  rewrite code_limit.
  match goal with
  | |- context [IncrementRateLimit ?c ?n ?key ?w] =>
      specialize (Hincr w); destruct (IncrementRateLimit c n key w) as [c' r']
  end.
  simpl in Hincr. subst r'. simpl.
  eexists. split; [reflexivity |]. simpl.
  rewrite clamp_max. auto.
Qed.

(** What [GetRateLimitStatus] returns when the store answers [count]. *)
Lemma GetRateLimitStatus_Ok t now k count :
  GetRateLimitCount (redisClient t) now (redisKey k) = Ok count ->
  exists r,
    GetRateLimitStatus t now k = Ok r /\
    Limit r = effective_limit (config t) k /\
    Allowed r = (count <? Limit r) /\
    Remaining r = Z.max 0 (sub64 (Limit r) count).
Proof.
  intros Hget. unfold GetRateLimitStatus. rewrite Hget, code_limit.
  eexists. split; [reflexivity |]. simpl.
  rewrite clamp_max. auto.
Qed.

(** C1. For every credential and every count the counter store returns,
    [CheckRateLimit] allows the request exactly when the count after the
    increment is at most the effective limit, and [GetRateLimitStatus],
    given the same count, reports allowed exactly when the count is
    strictly below the effective limit; at [count = limit] the consuming
    check allows and the status check does not. *)
Theorem allowed_boundary_asymmetry s t now k count :
  config t = config s ->
  (forall w, (IncrementRateLimit (redisClient s) now (redisKey k) w).2 = Ok count) ->
  GetRateLimitCount (redisClient t) now (redisKey k) = Ok count ->
  exists r1 r2,
    (CheckRateLimit s now k).2 = Ok r1 /\
    GetRateLimitStatus t now k = Ok r2 /\
    Limit r1 = effective_limit (config s) k /\
    Limit r2 = effective_limit (config s) k /\
    (Allowed r1 = true <-> count <= Limit r1) /\
    (Allowed r2 = true <-> count < Limit r2) /\
    (count = effective_limit (config s) k ->
     Allowed r1 = true /\ Allowed r2 = false).
Proof.
  intros Hcfg Hincr Hget.
  destruct (CheckRateLimit_Ok s now k count Hincr) as (r1 & E1 & L1 & A1 & _).
  destruct (GetRateLimitStatus_Ok t now k count Hget) as (r2 & E2 & L2 & A2 & _).
  rewrite Hcfg in L2.
  exists r1, r2. repeat split; auto.
  - rewrite A1. apply Z.leb_le.
  - rewrite A1. apply Z.leb_le.
  - rewrite A2. apply Z.ltb_lt.
  - rewrite A2. apply Z.ltb_lt.
  - rewrite A1, L1. apply Z.leb_le. lia.
  - rewrite A2, L2. apply Z.ltb_ge. lia.
Qed.

(** C2. For every credential and every counter value, [Remaining] of the
    snapshot of [CheckRateLimit] and of [GetRateLimitStatus] is
    [max 0 (limit - currentCount)], the difference being Go's [int64]
    subtraction; it is never negative, however far the count is above the
    limit, and it is the exact [max 0 (limit - currentCount)] whenever that
    difference is a 64-bit value, as it is for every limit and count that
    are not negative. *)
Theorem remaining_never_negative s t now k count :
  config t = config s ->
  (forall w, (IncrementRateLimit (redisClient s) now (redisKey k) w).2 = Ok count) ->
  GetRateLimitCount (redisClient t) now (redisKey k) = Ok count ->
  exists r1 r2,
    (CheckRateLimit s now k).2 = Ok r1 /\
    GetRateLimitStatus t now k = Ok r2 /\
    Remaining r1 = Z.max 0 (sub64 (Limit r1) count) /\
    Remaining r2 = Z.max 0 (sub64 (Limit r2) count) /\
    0 <= Remaining r1 /\ 0 <= Remaining r2 /\
    (in_int64 (effective_limit (config s) k - count) ->
     Remaining r1 = Z.max 0 (effective_limit (config s) k - count) /\
     Remaining r2 = Z.max 0 (effective_limit (config s) k - count)) /\
    (0 <= effective_limit (config s) k <= int64_max -> 0 <= count <= int64_max ->
     Remaining r1 = Z.max 0 (effective_limit (config s) k - count) /\
     Remaining r2 = Z.max 0 (effective_limit (config s) k - count)).
Proof.
  intros Hcfg Hincr Hget.
  destruct (CheckRateLimit_Ok s now k count Hincr) as (r1 & E1 & L1 & _ & R1).
  destruct (GetRateLimitStatus_Ok t now k count Hget) as (r2 & E2 & L2 & _ & R2).
  rewrite Hcfg in L2.
  assert (Hexact : in_int64 (effective_limit (config s) k - count) ->
     Remaining r1 = Z.max 0 (effective_limit (config s) k - count) /\
     Remaining r2 = Z.max 0 (effective_limit (config s) k - count)).
  { intros Hr. rewrite R1, R2, L1, L2, (sub64_exact _ _ Hr). auto. }
  exists r1, r2.
  split; [exact E1 |]. split; [exact E2 |].
  split; [exact R1 |]. split; [exact R2 |].
  split; [lia |]. split; [lia |].
  split; [exact Hexact |].
  intros Hl Hc. apply Hexact.
  unfold in_int64, int64_min, int64_max in *. lia.
Qed.


(** A failed read counts as zero. *)
Lemma GetRateLimitStatus_Err t now k e :
  GetRateLimitCount (redisClient t) now (redisKey k) = Err e ->
  exists r,
    GetRateLimitStatus t now k = Ok r /\
    Limit r = effective_limit (config t) k /\
    Allowed r = (0 <? Limit r) /\
    Remaining r = Z.max 0 (sub64 (Limit r) 0).
Proof.
  intros Hget. unfold GetRateLimitStatus. rewrite Hget, code_limit.
  eexists. split; [reflexivity |]. simpl.
  rewrite clamp_max. auto.
Qed.





End RateLimitService_properties.

(** *** The engine on concrete stores *)

Definition test_key (limit window : Z) : APIKey :=
  {| ID := "test-id-123"; KeyHash := "test-hash-abc123"; Name := "Test API Key";
     RateLimitRequests := limit; RateLimitWindowSeconds := window;
     IsActive := true; CreatedAt := 0; UpdatedAt := 0 |}.

(** A reachable server that holds no key. *)
Definition empty_client : Client := {| reachable := true; keys := ∅ |}.
Definition down_client : Client := {| reachable := false; keys := ∅ |}.

Definition service_on (c : Client) : RateLimitService Client :=
  {| redisClient := c; config := Load_defaults |}.

Lemma allowed_boundary_asymmetry_witness :
  exists r1 r2,
    (CheckRateLimit (service_on empty_client) 0 (test_key 1 60)).2 = Ok r1 /\
    GetRateLimitStatus (CheckRateLimit (service_on empty_client) 0 (test_key 1 60)).1
      0 (test_key 1 60) = Ok r2 /\
    Limit r1 = 1 /\ Limit r2 = 1 /\
    (Allowed r1 = true <-> 1 <= Limit r1) /\
    (Allowed r2 = true <-> 1 < Limit r2) /\
    (1 = 1 -> Allowed r1 = true /\ Allowed r2 = false).
Proof.
  apply (allowed_boundary_asymmetry (service_on empty_client)
           (CheckRateLimit (service_on empty_client) 0 (test_key 1 60)).1
           0 (test_key 1 60) 1).
  - reflexivity.
  - intros w. vm_compute. reflexivity.
  - vm_compute. reflexivity.
Defined.

(** The store of a service test: it answers [count] to both operations. *)
Definition mock_client (count : Z) : MockRedisClient :=
  {| on_IncrementRateLimit := fun _ _ => Ok count;
     on_GetRateLimitCount := fun _ => Ok count |}.

Definition mock_service (count : Z) : RateLimitService MockRedisClient :=
  {| redisClient := mock_client count; config := Load_defaults |}.

Lemma remaining_never_negative_witness :
  exists r1 r2,
    (CheckRateLimit (mock_service 15) 0 (test_key 10 60)).2 = Ok r1 /\
    GetRateLimitStatus (mock_service 15) 0 (test_key 10 60) = Ok r2 /\
    Remaining r1 = Z.max 0 (sub64 (Limit r1) 15) /\
    Remaining r2 = Z.max 0 (sub64 (Limit r2) 15) /\
    0 <= Remaining r1 /\ 0 <= Remaining r2 /\
    (in_int64 (10 - 15) -> Remaining r1 = Z.max 0 (10 - 15) /\ Remaining r2 = Z.max 0 (10 - 15)) /\
    (0 <= 10 <= int64_max -> 0 <= 15 <= int64_max ->
     Remaining r1 = Z.max 0 (10 - 15) /\ Remaining r2 = Z.max 0 (10 - 15)).
Proof.
  apply (remaining_never_negative (mock_service 15) (mock_service 15) 0 (test_key 10 60) 15).
  - reflexivity.
  - intros w. reflexivity.
  - reflexivity.
Defined.




(** ** The counter store *)

Lemma lookup_live_insert (db : gmap string entry) (now : Time) (key : string) (e : entry) :
  lookup_live (<[key := e]> db) now key = if live now e then Some e else None.
Proof. unfold lookup_live. rewrite lookup_insert_eq. reflexivity. Qed.

Lemma lookup_live_Some (db : gmap string entry) (now : Time) (key : string) (e : entry) :
  lookup_live db now key = Some e -> db !! key = Some e /\ live now e = true.
Proof.
  unfold lookup_live. destruct (db !! key) as [e' |]; [| discriminate].
  destruct (live now e') eqn:El; [| discriminate]. intros [= <-]. auto.
Qed.

(** After [INCR] the key is live: a fresh key has no expiry, and an old one
    keeps the expiry that had not passed. *)
Lemma Incr_live (db : gmap string entry) (now : Time) (key : string) (n : Z) :
  (Incr db now key).2 = Ok n ->
  exists e, lookup_live (Incr db now key).1 now key = Some e /\ val e = n.
Proof.
  unfold Incr. destruct (lookup_live db now key) as [e |] eqn:El.
  - apply lookup_live_Some in El as [_ Hl].
    destruct (val e =? int64_max); simpl; [discriminate |].
    intros [= <-]. rewrite lookup_live_insert. unfold live in *. simpl.
    rewrite Hl. eauto.
  - simpl. intros [= <-]. rewrite lookup_live_insert. simpl. eauto.
Qed.

(** Every successful [IncrementRateLimit] sets the expiry of the key to a
    full window from now, whether the key existed or not. *)
Lemma IncrementRateLimit_arms_expiry (c : Client) (now : Time) (key : string)
    (window : Duration) (n : Z) :
  (Client_IncrementRateLimit c now key window).2 = Ok n ->
  keys (Client_IncrementRateLimit c now key window).1 !! key
  = Some {| val := n; expireAt := Some (now + window) |}.
Proof.
  unfold Client_IncrementRateLimit. destruct (reachable c); [| discriminate].
  destruct (Incr (keys c) now key) as [db1 incr] eqn:Ei.
  pose proof (Incr_live (keys c) now key) as Hl. rewrite Ei in Hl. simpl in Hl.
  unfold Expire. destruct incr as [m | e]; simpl.
  - destruct (Hl m eq_refl) as (e & -> & <-). simpl.
    intros [= <-]. apply lookup_insert_eq.
  - destruct (lookup_live db1 now key); simpl; discriminate.
Qed.

(** The first increment of a key counts 1 and arms the expiry. *)
Lemma IncrementRateLimit_first (c : Client) (now : Time) (key : string) (window : Duration) :
  reachable c = true ->
  lookup_live (keys c) now key = None ->
  (Client_IncrementRateLimit c now key window).2 = Ok 1 /\
  keys (Client_IncrementRateLimit c now key window).1 !! key
  = Some {| val := 1; expireAt := Some (now + window) |}.
Proof.
  intros Hr Hk.
  assert (E : (Client_IncrementRateLimit c now key window).2 = Ok 1).
  { unfold Client_IncrementRateLimit, Incr, Expire. rewrite Hr, Hk.
    rewrite lookup_live_insert. reflexivity. }
  split; [exact E |]. apply IncrementRateLimit_arms_expiry, E.
Qed.

(** C4. [IncrementRateLimit] does not arm the expiry only on the first
    increment: [EXPIRE] is sent with every [INCR]. A key created at 0 with
    a window of 60 s is due to expire at 60 s; an increment at 59 s moves
    the expiry to 119 s, and at 61 s, after the window has elapsed, the
    counter still reads 2. *)
Theorem IncrementRateLimit_rearms_existing_key :
  keys (Client_IncrementRateLimit empty_client 0 "rate_limit:k" (60 * Second)).1
    !! "rate_limit:k"
  = Some {| val := 1; expireAt := Some (60 * Second) |} /\
  Client_IncrementRateLimit
    (Client_IncrementRateLimit empty_client 0 "rate_limit:k" (60 * Second)).1
    (59 * Second) "rate_limit:k" (60 * Second)
  = ({| reachable := true;
        keys := {[ "rate_limit:k" := {| val := 2; expireAt := Some (119 * Second) |} ]} |},
     Ok 2) /\
  Client_GetRateLimitCount
    (Client_IncrementRateLimit
       (Client_IncrementRateLimit empty_client 0 "rate_limit:k" (60 * Second)).1
       (59 * Second) "rate_limit:k" (60 * Second)).1
    (61 * Second) "rate_limit:k"
  = Ok 2.
Proof. vm_compute. repeat split; reflexivity. Qed.

(** ** The admission middleware *)

(** The credential a request presents: the [X-API-Key] header, else the
    token of a [Bearer] authorization header, else none (the empty string). *)
Definition credential_of (req : Request) : string :=
  if String.eqb (GetHeader req "X-API-Key") "" then
    if negb (String.eqb (GetHeader req "Authorization") "")
       && HasPrefix (GetHeader req "Authorization") "Bearer "
    then TrimPrefix (GetHeader req "Authorization") "Bearer "
    else GetHeader req "X-API-Key"
  else GetHeader req "X-API-Key".

Definition api_key_required : Context :=
  reject StatusUnauthorized
    [("error", VString "API key required");
     ("message", VString "Please provide an API key in the X-API-Key header or Authorization header")]
    [].

Definition invalid_api_key : Context :=
  reject StatusUnauthorized
    [("error", VString "Invalid API key");
     ("message", VString "The provided API key is invalid or inactive")]
    [].

Definition rate_limit_check_failed : Context :=
  reject StatusInternalServerError
    [("error", VString "Rate limit check failed");
     ("message", VString "Unable to check rate limit")]
    [].

Definition rate_limit_headers (r : RateLimitResult) : list (string * header_value) :=
  [("X-RateLimit-Limit", HInt (Limit r));
   ("X-RateLimit-Remaining", HInt (Remaining r));
   ("X-RateLimit-Reset", HTime (ResetTime r))].

Definition rate_limit_exceeded (later : Time) (r : RateLimitResult) : Context :=
  reject StatusTooManyRequests
    [("error", VString "Rate limit exceeded");
     ("message", VString "You have exceeded your rate limit. Please try again later.");
     ("retry_after", VInt (Seconds_int (Until later (ResetTime r))))]
    (rate_limit_headers r).

(** The paths the middleware lets through unchecked. *)
Definition skipped (req : Request) : Prop :=
  Path req = "/health" \/ Path req = "/metrics".

Section RateLimit_properties.

Context {C : Type} `{!ClientInterface C}.
Implicit Types (a : APIKeyService) (svc : RateLimitService C)
  (now later : Time) (req : Request).

Lemma RateLimit_skipped a svc now later req :
  skipped req -> RateLimit a svc now later req = (svc, proceed [] None).
Proof. unfold RateLimit. intros [-> | ->]; reflexivity. Qed.

Lemma not_skipped_eqb req :
  ~ skipped req ->
  String.eqb (Path req) "/health" || String.eqb (Path req) "/metrics" = false.
Proof.
  unfold skipped. intros Hn. apply orb_false_intro; apply String.eqb_neq; tauto.
Qed.

Lemma RateLimit_no_credential a svc now later req :
  ~ skipped req -> credential_of req = "" ->
  RateLimit a svc now later req = (svc, api_key_required).
Proof.
  intros Hs Hc. unfold RateLimit. rewrite (not_skipped_eqb _ Hs).
  unfold credential_of in Hc. cbv zeta. rewrite Hc. reflexivity.
Qed.

Lemma RateLimit_invalid a svc now later req e :
  ~ skipped req -> credential_of req <> "" ->
  ValidateAPIKey a (credential_of req) = Err e ->
  RateLimit a svc now later req = (svc, invalid_api_key).
Proof.
  intros Hs Hc Hv. unfold RateLimit. rewrite (not_skipped_eqb _ Hs).
  apply String.eqb_neq in Hc. unfold credential_of in Hc, Hv. cbv zeta.
  rewrite Hc, Hv. reflexivity.
Qed.

Lemma RateLimit_checked a svc now later req record :
  ~ skipped req -> credential_of req <> "" ->
  ValidateAPIKey a (credential_of req) = Ok record ->
  RateLimit a svc now later req =
  match CheckRateLimit svc now record with
  | (svc', Err _) => (svc', rate_limit_check_failed)
  | (svc', Ok r) =>
      if negb (Allowed r) then (svc', rate_limit_exceeded later r)
      else (svc', proceed (rate_limit_headers r) (Some record))
  end.
Proof.
  intros Hs Hc Hv. unfold RateLimit. rewrite (not_skipped_eqb _ Hs).
  apply String.eqb_neq in Hc. unfold credential_of in Hc, Hv. cbv zeta.
  rewrite Hc, Hv. reflexivity.
Qed.

(** C3. An administrative path is not skipped: a request to
    [/admin/api-keys] that carries no credential is rejected with
    401 "API key required" and never reaches its handler. *)
Theorem admin_path_not_skipped a svc now later :
  RateLimit a svc now later {| Path := "/admin/api-keys"; Header := ∅ |}
  = (svc, api_key_required) /\
  Status api_key_required = Some 401 /\
  Aborted api_key_required = true /\
  NextCalled api_key_required = false.
Proof. repeat split; reflexivity. Qed.

End RateLimit_properties.

(** ** The credential registry *)


Fixpoint string_forall (p : ascii -> bool) (s : string) : bool :=
  match s with
  | EmptyString => true
  | String a rest => p a && string_forall p rest
  end.








Lemma filter_length_zero {A} (f : A -> bool) (l : list A) :
  Z.of_nat (length (List.filter f l)) = 0 <-> forall x, In x l -> f x = false.
Proof.
  induction l as [| x l IH]; simpl.
  - split; [intros _ y [] | reflexivity].
  - destruct (f x) eqn:Ef; simpl.
    + split; [lia |]. intros H. specialize (H x (or_introl eq_refl)). congruence.
    + rewrite IH. split.
      * intros H y [<- | Hy]; auto.
      * intros H y Hy. apply H. auto.
Qed.


(** C9. [DeactivateAPIKey] selects by digest alone: with the database
    answering, it fails with "API key not found" exactly when no row,
    active or not, carries the digest of the key; otherwise it succeeds,
    and afterwards every row with that digest is inactive while the other
    rows are as they were. *)
Theorem DeactivateAPIKey_by_digest (s : APIKeyService) (now : Time) (apiKey : string) :
  fault (db s) = None ->
  ((DeactivateAPIKey s now apiKey).2 = Some "API key not found" <->
   forall r, In r (api_keys (db s)) -> KeyHash r <> hashAPIKey apiKey) /\
  ((exists r, In r (api_keys (db s)) /\ KeyHash r = hashAPIKey apiKey) ->
   (DeactivateAPIKey s now apiKey).2 = None) /\
  api_keys (db (DeactivateAPIKey s now apiKey).1)
  = map (fun r => if String.eqb (KeyHash r) (hashAPIKey apiKey)
                  then deactivated now r else r) (api_keys (db s)) /\
  (forall r, In r (api_keys (db (DeactivateAPIKey s now apiKey).1)) ->
     KeyHash r = hashAPIKey apiKey -> IsActive r = false).
Proof.
  intros Hf. unfold DeactivateAPIKey, Exec_update. cbv zeta. rewrite Hf. simpl.
  set (p := fun r : APIKey => String.eqb (KeyHash r) (hashAPIKey apiKey)).
  pose proof (filter_length_zero p (api_keys (db s))) as Hz.
  assert (Hne : (forall x, In x (api_keys (db s)) -> p x = false) <->
                (forall r, In r (api_keys (db s)) -> KeyHash r <> hashAPIKey apiKey)).
  { split; intros H r Hr; specialize (H r Hr); unfold p in *;
      apply String.eqb_neq; exact H. }
  assert (Hoff : forall r,
            In r (map (fun r => if p r then deactivated now r else r) (api_keys (db s))) ->
            KeyHash r = hashAPIKey apiKey -> IsActive r = false).
  { intros r Hr Hh. apply in_map_iff in Hr as (r0 & <- & Hr0).
    destruct (p r0) eqn:Ep; [reflexivity |].
    unfold p in Ep. apply String.eqb_neq in Ep. contradiction. }
  destruct (Z.eqb_spec (Z.of_nat (length (List.filter p (api_keys (db s))))) 0) as [E | E];
    simpl.
  - split; [| split; [| split]].
    + split; [intros _; apply Hne, Hz, E | reflexivity].
    + intros (r & Hr & Hh). exfalso.
      apply (proj1 Hne (proj1 Hz E) r Hr Hh).
    + reflexivity.
    + exact Hoff.
  - split; [| split; [| split]].
    + split; [discriminate |]. intros H. exfalso. apply E, Hz, Hne, H.
    + reflexivity.
    + reflexivity.
    + exact Hoff.
Qed.

(** *** The registry on concrete tables *)

Definition stored_key (id apiKey : string) (limit window : Z) (active : bool) : APIKey :=
  {| ID := id; KeyHash := hashAPIKey apiKey; Name := "client";
     RateLimitRequests := limit; RateLimitWindowSeconds := window;
     IsActive := active; CreatedAt := 0; UpdatedAt := 0 |}.

Definition registry_of (rows : list APIKey) : APIKeyService :=
  {| db := {| fault := None; api_keys := rows |} |}.

Definition unreachable_registry : APIKeyService :=
  {| db := {| fault := Some "dial tcp: connection refused"; api_keys := [] |} |}.


(** Revoking a key whose row is already inactive succeeds, although no
    active row carries its digest. *)
Lemma DeactivateAPIKey_inactive_succeeds :
  List.filter
    (fun r => String.eqb (KeyHash r) (hashAPIKey "revoked") && IsActive r)
    [stored_key "2" "revoked" 10 60 false] = [] /\
  ValidateAPIKey (registry_of [stored_key "2" "revoked" 10 60 false]) "revoked"
  = Err "invalid API key" /\
  (DeactivateAPIKey (registry_of [stored_key "2" "revoked" 10 60 false]) 5 "revoked").2
  = None.
Proof. vm_compute. repeat split; reflexivity. Qed.

Lemma DeactivateAPIKey_by_digest_witness :
  (DeactivateAPIKey (registry_of [stored_key "1" "secret" 10 60 true]) 5 "secret").2 = None /\
  (forall r,
     In r (api_keys (db (DeactivateAPIKey
                           (registry_of [stored_key "1" "secret" 10 60 true]) 5 "secret").1)) ->
     KeyHash r = hashAPIKey "secret" -> IsActive r = false).
Proof.
  pose proof (DeactivateAPIKey_by_digest
                (registry_of [stored_key "1" "secret" 10 60 true]) 5 "secret" eq_refl)
    as (_ & Hok & _ & Hoff).
  split; [| exact Hoff].
  apply Hok. exists (stored_key "1" "secret" 10 60 true).
  split; [left; reflexivity | reflexivity].
Defined.

(** ** Backend failures and rejections in the middleware *)

Lemma ValidateAPIKey_unreachable (a : APIKeyService) (apiKey : string) (e : error) :
  fault (db a) = Some e ->
  ValidateAPIKey a apiKey = Err (wrap_error "failed to validate API key" e).
Proof. intros Hf. unfold ValidateAPIKey, QueryRow_Scan. rewrite Hf. reflexivity. Qed.



Section backend_failures.

Context {C : Type} `{!ClientInterface C}.
Implicit Types (a : APIKeyService) (svc : RateLimitService C)
  (now later : Time) (req : Request).

(** A failed increment is an error of the engine, never a snapshot. *)
Lemma CheckRateLimit_Err svc now k e :
  (forall w, (IncrementRateLimit (redisClient svc) now (redisKey k) w).2 = Err e) ->
  (CheckRateLimit svc now k).2 = Err (wrap_error "failed to check rate limit" e).
Proof.
  intros Hincr. unfold CheckRateLimit. cbv zeta.
  match goal with
  | |- context [IncrementRateLimit ?c ?n ?key ?w] =>
      specialize (Hincr w); destruct (IncrementRateLimit c n key w) as [c' r']
  end.
  simpl in Hincr. subst r'. reflexivity.
Qed.

(** C5. A request that carries a credential is rejected when a backend
    cannot be reached, and the handler does not run. When the counter
    store fails, the engine returns the error "failed to check rate
    limit" and no snapshot, the store having been asked once, and the
    middleware answers 500 "Rate limit check failed", which is not the
    answer to a bad credential. When the registry fails, the answer is the
    401 "Invalid API key" of a bad credential, and the counter store is
    not touched. *)
Theorem backend_failure_rejected a svc now later req :
  ~ skipped req ->
  credential_of req <> "" ->
  (forall e, fault (db a) = Some e ->
     RateLimit a svc now later req = (svc, invalid_api_key)) /\
  (forall record e,
     ValidateAPIKey a (credential_of req) = Ok record ->
     (forall w, (IncrementRateLimit (redisClient svc) now (redisKey record) w).2 = Err e) ->
     (CheckRateLimit svc now record).2 = Err (wrap_error "failed to check rate limit" e) /\
     RateLimit a svc now later req
     = ((CheckRateLimit svc now record).1, rate_limit_check_failed)) /\
  Status rate_limit_check_failed = Some 500 /\
  Status invalid_api_key = Some 401 /\
  Aborted rate_limit_check_failed = true /\ NextCalled rate_limit_check_failed = false /\
  Aborted invalid_api_key = true /\ NextCalled invalid_api_key = false.
Proof.
  intros Hs Hc. split; [| split; [| repeat split]].
  - intros e Hf.
    apply (RateLimit_invalid a svc now later req _ Hs Hc
             (ValidateAPIKey_unreachable a _ e Hf)).
  - intros record e Hv Hincr.
    pose proof (CheckRateLimit_Err svc now record e Hincr) as He.
    split; [exact He |].
    rewrite (RateLimit_checked a svc now later req record Hs Hc Hv).
    destruct (CheckRateLimit svc now record) as [svc' r]. simpl in He. subst r.
    reflexivity.
Qed.


End backend_failures.

(** *** The middleware on concrete requests *)

Definition api_request (path apiKey : string) : Request :=
  {| Path := path; Header := {[ "X-API-Key" := apiKey ]} |}.

Lemma api_request_not_skipped (apiKey : string) : ~ skipped (api_request "/api/test" apiKey).
Proof. unfold skipped. simpl. intros [H | H]; discriminate. Qed.

(** With a valid credential a request to an administrative path is
    counted against the quota of the key like any other. *)
Lemma admin_path_consumes_quota :
  keys (redisClient
          (RateLimit (registry_of [stored_key "1" "secret" 10 60 true])
             (service_on empty_client) 0 0 (api_request "/admin/api-keys" "secret")).1)
    !! "rate_limit:1"
  = Some {| val := 1; expireAt := Some (60 * Second) |}.
Proof. vm_compute. reflexivity. Qed.

(** An unreachable registry is answered like an unknown key, not with
    "Rate limit check failed". *)
Lemma registry_failure_is_invalid_api_key :
  RateLimit unreachable_registry (service_on empty_client) 0 0
    (api_request "/api/test" "secret")
  = (service_on empty_client, invalid_api_key) /\
  RateLimit (registry_of []) (service_on empty_client) 0 0
    (api_request "/api/test" "secret")
  = (service_on empty_client, invalid_api_key) /\
  invalid_api_key <> rate_limit_check_failed.
Proof.
  split; [vm_compute; reflexivity | split; [vm_compute; reflexivity |]].
  intros H. discriminate H.
Qed.

Lemma backend_failure_rejected_witness :
  RateLimit unreachable_registry (service_on empty_client) 0 0
    (api_request "/api/test" "secret")
  = (service_on empty_client, invalid_api_key) /\
  (CheckRateLimit (service_on down_client) 0 (stored_key "1" "secret" 10 60 true)).2
  = Err "failed to check rate limit: dial tcp: connection refused" /\
  RateLimit (registry_of [stored_key "1" "secret" 10 60 true]) (service_on down_client) 0 0
    (api_request "/api/test" "secret")
  = ((CheckRateLimit (service_on down_client) 0 (stored_key "1" "secret" 10 60 true)).1,
     rate_limit_check_failed).
Proof.
  assert (Hc : credential_of (api_request "/api/test" "secret") <> "")
    by (vm_compute; discriminate).
  split.
  - apply (proj1 (backend_failure_rejected unreachable_registry (service_on empty_client)
                    0 0 _ (api_request_not_skipped "secret") Hc)
             "dial tcp: connection refused").
    reflexivity.
  - apply (proj1 (proj2 (backend_failure_rejected
                           (registry_of [stored_key "1" "secret" 10 60 true])
                           (service_on down_client)
                           0 0 _ (api_request_not_skipped "secret") Hc))
             (stored_key "1" "secret" 10 60 true) "dial tcp: connection refused").
    + vm_compute. reflexivity.
    + intros w. reflexivity.
Defined.




(** ** The repository's unit tests, replayed on the embedding *)

(** [TestRateLimitService_CheckRateLimit_WithDefaults]. *)
Example test_CheckRateLimit_WithDefaults :
  (CheckRateLimit (mock_service 50) 7 (test_key 0 0)).2
  = Ok {| Allowed := true; Remaining := 50; ResetTime := 7 + Hour; Limit := 100 |}.
Proof. reflexivity. Qed.

(** [TestRateLimitService_CheckRateLimit_EdgeCase_ExactlyAtLimit]. *)
Example test_CheckRateLimit_ExactlyAtLimit :
  (CheckRateLimit (mock_service 10) 7 (test_key 10 60)).2
  = Ok {| Allowed := true; Remaining := 0; ResetTime := 7 + 60 * Second; Limit := 10 |}.
Proof. reflexivity. Qed.

(** [TestRateLimitService_CheckRateLimit_EdgeCase_OneOverLimit]. *)
Example test_CheckRateLimit_OneOverLimit :
  (CheckRateLimit (mock_service 11) 7 (test_key 10 60)).2
  = Ok {| Allowed := false; Remaining := 0; ResetTime := 7 + 60 * Second; Limit := 10 |}.
Proof. reflexivity. Qed.

(** [TestRateLimitService_GetRateLimitStatus_EdgeCase_ExactlyAtLimit]. *)
Example test_GetRateLimitStatus_ExactlyAtLimit :
  GetRateLimitStatus (mock_service 10) 7 (test_key 10 60)
  = Ok {| Allowed := false; Remaining := 0; ResetTime := 7 + 60 * Second; Limit := 10 |}.
Proof. reflexivity. Qed.

(** [TestRateLimitService_GetRateLimitStatus_KeyNotFound]. *)
Example test_GetRateLimitStatus_KeyNotFound :
  GetRateLimitStatus
    {| redisClient := {| on_IncrementRateLimit := fun _ _ => Err "unavailable";
                         on_GetRateLimitCount := fun _ => Err "redis: nil" |};
       config := Load_defaults |}
    7 (test_key 10 60)
  = Ok {| Allowed := true; Remaining := 10; ResetTime := 7 + 60 * Second; Limit := 10 |}.
Proof. reflexivity. Qed.

(** [TestRateLimitService_CheckRateLimit_RedisError]. *)
Example test_CheckRateLimit_RedisError :
  (CheckRateLimit
     {| redisClient := {| on_IncrementRateLimit := fun _ _ => Err "unavailable";
                          on_GetRateLimitCount := fun _ => Err "redis: nil" |};
        config := Load_defaults |}
     7 (test_key 10 60)).2
  = Err "failed to check rate limit: unavailable".
Proof. reflexivity. Qed.

(** [TestRateLimit_SkipHealthCheck]. *)
Example test_RateLimit_SkipHealthCheck :
  (RateLimit (registry_of []) (service_on empty_client) 0 0
     {| Path := "/health"; Header := ∅ |}).2
  = proceed [] None.
Proof. reflexivity. Qed.

(** [TestRateLimit_AuthorizationHeader]: the bearer token is the credential. *)
Example test_RateLimit_AuthorizationHeader :
  credential_of {| Path := "/api/test";
                   Header := {[ "Authorization" := "Bearer bearer-key" ]} |}
  = "bearer-key".
Proof. vm_compute. reflexivity. Qed.

(** [TestRateLimit_InvalidAuthorizationHeader] and
    [TestRateLimit_EmptyAuthorizationHeader]. *)
Example test_RateLimit_no_bearer_token :
  (RateLimit (registry_of []) (service_on empty_client) 0 0
     {| Path := "/api/test"; Header := {[ "Authorization" := "InvalidFormat key" ]} |}).2
  = api_key_required /\
  (RateLimit (registry_of []) (service_on empty_client) 0 0
     {| Path := "/api/test"; Header := {[ "Authorization" := "Bearer " ]} |}).2
  = api_key_required.
Proof. vm_compute. split; reflexivity. Qed.

(** The first five requests of a key with limit 5 are allowed with 4, 3, 2,
    1 and 0 remaining; the sixth is not. *)
Fixpoint requests (n : nat) (s : RateLimitService Client) (now : Time) (k : APIKey)
  : list (bool * Z) :=
  match n with
  | O => []
  | S n' =>
      match CheckRateLimit s now k with
      | (s', Ok r) => (Allowed r, Remaining r) :: requests n' s' now k
      | (s', Err _) => requests n' s' now k
      end
  end.

Example six_requests_of_five :
  requests 6 (service_on empty_client) 0 (test_key 5 60)
  = [(true, 4); (true, 3); (true, 2); (true, 1); (true, 0); (false, 0)].
Proof. vm_compute. reflexivity. Qed.

(** * Further properties of the code *)

(** ** The counter store, operation by operation *)


Lemma IncrementRateLimit_reachable (c : Client) (now : Time) (key : string) (w : Duration) :
  reachable (Client_IncrementRateLimit c now key w).1 = reachable c.
Proof.
  unfold Client_IncrementRateLimit. destruct (reachable c) eqn:Hr; [| exact Hr].
  destruct (Incr (keys c) now key) as [db1 incr].
  destruct (Expire db1 now key w) as [db2 expire].
  destruct (first_error incr expire); reflexivity.
Qed.


Lemma Incr_other (db : gmap string entry) (now : Time) (key key' : string) :
  key <> key' -> (Incr db now key).1 !! key' = db !! key'.
Proof.
  intros Hne. unfold Incr. destruct (lookup_live db now key) as [e |]; simpl.
  - destruct (val e =? int64_max); simpl; [reflexivity |].
    apply lookup_insert_ne, Hne.
  - apply lookup_insert_ne, Hne.
Qed.

Lemma Expire_other (db : gmap string entry) (now : Time) (key key' : string) (w : Duration) :
  key <> key' -> (Expire db now key w).1 !! key' = db !! key'.
Proof.
  intros Hne. unfold Expire. destruct (lookup_live db now key) as [e |]; simpl.
  - apply lookup_insert_ne, Hne.
  - reflexivity.
Qed.

Lemma IncrementRateLimit_other (c : Client) (now : Time) (key key' : string) (w : Duration) :
  key <> key' ->
  keys (Client_IncrementRateLimit c now key w).1 !! key' = keys c !! key'.
Proof.
  intros Hne. unfold Client_IncrementRateLimit. destruct (reachable c); [| reflexivity].
  pose proof (Incr_other (keys c) now key key' Hne) as Hi.
  destruct (Incr (keys c) now key) as [db1 incr]. simpl in Hi.
  pose proof (Expire_other db1 now key key' w Hne) as He.
  destruct (Expire db1 now key w) as [db2 expire]. simpl in He.
  destruct (first_error incr expire); simpl; congruence.
Qed.






(** X2. An increment of one key changes what no other key reads, at any
    time, and whether or not the server can be reached. *)
Theorem increment_leaves_other_keys (c : Client) (now t : Time) (key key' : string)
    (window : Duration) :
  key <> key' ->
  Client_GetRateLimitCount (Client_IncrementRateLimit c now key window).1 t key'
  = Client_GetRateLimitCount c t key'.
Proof.
  intros Hne. unfold Client_GetRateLimitCount, Get_Int64, lookup_live.
  rewrite IncrementRateLimit_reachable, (IncrementRateLimit_other _ _ _ _ _ Hne).
  reflexivity.
Qed.

Lemma increment_leaves_other_keys_witness :
  Client_GetRateLimitCount
    (Client_IncrementRateLimit
       (Client_IncrementRateLimit empty_client 0 "rate_limit:a" (60 * Second)).1
       1 "rate_limit:b" (60 * Second)).1
    2 "rate_limit:a"
  = Client_GetRateLimitCount
      (Client_IncrementRateLimit empty_client 0 "rate_limit:a" (60 * Second)).1
      2 "rate_limit:a".
Proof.
  apply (increment_leaves_other_keys
           (Client_IncrementRateLimit empty_client 0 "rate_limit:a" (60 * Second)).1
           1 2 "rate_limit:b" "rate_limit:a" (60 * Second)).
  discriminate.
Defined.



(** ** The engine over the Redis store *)

Lemma redisKey_inj (k1 k2 : APIKey) : redisKey k1 = redisKey k2 -> ID k1 = ID k2.
Proof. unfold redisKey. simpl. intros [= H]. exact H. Qed.







Lemma CheckRateLimit_Client_store (s : RateLimitService Client) (now : Time) (k : APIKey) :
  exists w,
    redisClient (CheckRateLimit s now k).1
    = (Client_IncrementRateLimit (redisClient s) now (redisKey k) w).1 /\
    config (CheckRateLimit s now k).1 = config s /\
    forall r, (CheckRateLimit s now k).2 = Ok r ->
      exists n,
        (Client_IncrementRateLimit (redisClient s) now (redisKey k) w).2 = Ok n /\
        Allowed r = (n <=? Limit r) /\
        Remaining r = Z.max 0 (sub64 (Limit r) n) /\
        Limit r = effective_limit (config s) k /\
        ResetTime r = now + w.
Proof.
  unfold CheckRateLimit. rewrite code_limit.
  cbn [IncrementRateLimit Client_ClientInterface].
  match goal with
  | |- context [Client_IncrementRateLimit ?c ?n ?key ?w] =>
      exists w; destruct (Client_IncrementRateLimit c n key w) as [c' [n' | e]]
  end; simpl.
  - split; [reflexivity |]. split; [reflexivity |].
    intros r [= <-]. exists n'. simpl. rewrite clamp_max. unfold Time_Add. auto.
  - split; [reflexivity |]. split; [reflexivity |]. discriminate.
Qed.

(** X5. Counters are kept per record ID: a consuming check for one
    credential changes no status of a credential with another ID, at any
    time. *)
Theorem counters_per_ID (s : RateLimitService Client) (now t : Time) (k1 k2 : APIKey) :
  ID k1 <> ID k2 ->
  GetRateLimitStatus (CheckRateLimit s now k1).1 t k2 = GetRateLimitStatus s t k2.
Proof.
  intros Hid.
  destruct (CheckRateLimit_Client_store s now k1) as (w & Hc & Hcfg & _).
  assert (Hne : redisKey k1 <> redisKey k2).
  { intros H. apply Hid, redisKey_inj, H. }
  unfold GetRateLimitStatus. cbn [GetRateLimitCount Client_ClientInterface].
  rewrite Hc, Hcfg.
  unfold Client_GetRateLimitCount, Get_Int64, lookup_live.
  rewrite IncrementRateLimit_reachable, (IncrementRateLimit_other _ _ _ _ _ Hne).
  reflexivity.
Qed.

Lemma counters_per_ID_witness :
  GetRateLimitStatus
    (CheckRateLimit (service_on empty_client) 0 (stored_key "1" "secret" 10 60 true)).1
    1 (stored_key "2" "other" 10 60 true)
  = GetRateLimitStatus (service_on empty_client) 1 (stored_key "2" "other" 10 60 true).
Proof.
  apply (counters_per_ID (service_on empty_client) 0 1
           (stored_key "1" "secret" 10 60 true) (stored_key "2" "other" 10 60 true)).
  discriminate.
Defined.









(** ** The middleware, request by request *)

Lemma substring_all (s : string) : String.substring 0 (String.length s) s = s.
Proof. induction s as [| a s IH]; simpl; [reflexivity | rewrite IH; reflexivity]. Qed.

Lemma TrimPrefix_Bearer (tok : string) : TrimPrefix ("Bearer " ++ tok) "Bearer " = tok.
Proof.
  unfold TrimPrefix, HasPrefix. simpl.
  replace (String.length tok - 0)%nat with (String.length tok) by lia.
  destruct tok as [| a tok]; simpl; [reflexivity |].
  rewrite substring_all. reflexivity.
Qed.

Lemma HasPrefix_Bearer (tok : string) : HasPrefix ("Bearer " ++ tok) "Bearer " = true.
Proof. unfold HasPrefix. simpl. destruct tok; reflexivity. Qed.

Lemma ValidateAPIKey_Ok_active (a : APIKeyService) (apiKey : string) (record : APIKey) :
  ValidateAPIKey a apiKey = Ok record -> IsActive record = true.
Proof.
  unfold ValidateAPIKey, QueryRow_Scan. destruct (fault (db a)); [discriminate |].
  destruct (List.find _ (api_keys (db a))) as [row |] eqn:Ef; [| discriminate].
  intros [= ->]. apply List.find_some in Ef as [_ Hp].
  apply andb_true_iff in Hp as [_ Ha]. exact Ha.
Qed.

Section RateLimit_requests.

Context {C : Type} `{!ClientInterface C}.
Implicit Types (a : APIKeyService) (svc : RateLimitService C)
  (now later : Time) (req : Request).

Lemma skipped_dec req : skipped req \/ ~ skipped req.
Proof.
  unfold skipped.
  destruct (String.eqb_spec (Path req) "/health") as [H1 | H1]; [auto |].
  destruct (String.eqb_spec (Path req) "/metrics") as [H2 | H2]; [auto |].
  right. intros [H | H]; contradiction.
Qed.

(** The middleware reads a request through its path and its credential. *)
Lemma RateLimit_by_credential a svc now later req1 req2 :
  Path req1 = Path req2 ->
  credential_of req1 = credential_of req2 ->
  RateLimit a svc now later req1 = RateLimit a svc now later req2.
Proof.
  intros Hp Hc. unfold RateLimit, credential_of in *. cbv zeta.
  rewrite Hp, Hc. reflexivity.
Qed.

(** X8. A token sent as [Authorization: Bearer <token>], with no
    [X-API-Key] header, is treated as the same token sent in [X-API-Key]:
    the two requests get the same answer and leave the same store. *)
Theorem bearer_token_as_api_key a svc now later req1 req2 (tok : string) :
  tok <> "" ->
  Path req1 = Path req2 ->
  GetHeader req1 "X-API-Key" = tok ->
  GetHeader req2 "X-API-Key" = "" ->
  GetHeader req2 "Authorization" = "Bearer " ++ tok ->
  RateLimit a svc now later req1 = RateLimit a svc now later req2.
Proof.
  intros Htok Hp H1 H2 H3. apply RateLimit_by_credential; [exact Hp |].
  unfold credential_of. rewrite H1, H2, H3, TrimPrefix_Bearer, HasPrefix_Bearer.
  apply String.eqb_neq in Htok. rewrite Htok. reflexivity.
Qed.

(** X9. The middleware touches the counter store for a request only
    after it has validated the credential, and then with exactly one
    consuming check, also when it goes on to refuse the request; every
    request that is skipped or answered 401 leaves the store as it was. *)
Theorem store_touched_once a svc now later req :
  ((RateLimit a svc now later req).1 = svc \/
   exists record,
     ~ skipped req /\ credential_of req <> "" /\
     ValidateAPIKey a (credential_of req) = Ok record /\
     (RateLimit a svc now later req).1 = (CheckRateLimit svc now record).1) /\
  (skipped req -> (RateLimit a svc now later req).1 = svc) /\
  (Status (RateLimit a svc now later req).2 = Some 401 ->
   (RateLimit a svc now later req).1 = svc).
Proof.
  destruct (skipped_dec req) as [Hs | Hs].
  { rewrite (RateLimit_skipped a svc now later req Hs). simpl. auto. }
  destruct (String.eqb_spec (credential_of req) "") as [Hc | Hc].
  { rewrite (RateLimit_no_credential a svc now later req Hs Hc). simpl. auto. }
  destruct (ValidateAPIKey a (credential_of req)) as [record | e] eqn:Hv.
  - rewrite (RateLimit_checked a svc now later req record Hs Hc Hv).
    split; [right; exists record; split; [exact Hs |]; split; [exact Hc |];
            split; [reflexivity |] | split; [contradiction |]];
      destruct (CheckRateLimit svc now record) as [svc' [r | e]];
      [destruct (Allowed r) | | destruct (Allowed r) |]; simpl;
      try reflexivity; discriminate.
  - rewrite (RateLimit_invalid a svc now later req e Hs Hc Hv). simpl. auto.
Qed.

(** X10. The handler of a path that is not skipped runs only for a
    request whose credential the registry resolved to an active record and
    whose consuming check returned an allowed snapshot; the context then
    holds that record and the quota headers of that snapshot, and no
    status has been written. A request is aborted exactly when its handler
    does not run. *)
Theorem handler_runs_only_when_admitted a svc now later req :
  (NextCalled (RateLimit a svc now later req).2 = true ->
   skipped req \/
   exists record r,
     credential_of req <> "" /\
     ValidateAPIKey a (credential_of req) = Ok record /\
     IsActive record = true /\
     (CheckRateLimit svc now record).2 = Ok r /\
     Allowed r = true /\
     api_key (RateLimit a svc now later req).2 = Some record /\
     ResponseHeader (RateLimit a svc now later req).2 = rate_limit_headers r /\
     Status (RateLimit a svc now later req).2 = None) /\
  Aborted (RateLimit a svc now later req).2
  = negb (NextCalled (RateLimit a svc now later req).2).
Proof.
  destruct (skipped_dec req) as [Hs | Hs].
  { rewrite (RateLimit_skipped a svc now later req Hs). simpl. auto. }
  destruct (String.eqb_spec (credential_of req) "") as [Hc | Hc].
  { rewrite (RateLimit_no_credential a svc now later req Hs Hc). simpl.
    split; [discriminate | reflexivity]. }
  destruct (ValidateAPIKey a (credential_of req)) as [record | e] eqn:Hv.
  - rewrite (RateLimit_checked a svc now later req record Hs Hc Hv).
    pose proof (ValidateAPIKey_Ok_active a _ record Hv) as Hact.
    destruct (CheckRateLimit svc now record) as [svc' [r | e]] eqn:Hchk.
    + destruct (Allowed r) eqn:Hal; simpl.
      * split; [| reflexivity]. intros _. right. exists record, r.
        split; [exact Hc |]. split; [reflexivity |]. split; [exact Hact |].
        split; [rewrite Hchk; reflexivity |]. split; [exact Hal |]. auto.
      * split; [discriminate | reflexivity].
    + simpl. split; [discriminate | reflexivity].
  - rewrite (RateLimit_invalid a svc now later req e Hs Hc Hv). simpl.
    split; [discriminate | reflexivity].
Qed.

End RateLimit_requests.

Lemma bearer_token_as_api_key_witness :
  RateLimit (registry_of [stored_key "1" "secret" 10 60 true]) (service_on empty_client) 0 0
    (api_request "/api/test" "secret")
  = RateLimit (registry_of [stored_key "1" "secret" 10 60 true]) (service_on empty_client) 0 0
      {| Path := "/api/test"; Header := {[ "Authorization" := "Bearer secret" ]} |}.
Proof.
  apply (bearer_token_as_api_key
           (registry_of [stored_key "1" "secret" 10 60 true]) (service_on empty_client) 0 0
           (api_request "/api/test" "secret")
           {| Path := "/api/test"; Header := {[ "Authorization" := "Bearer secret" ]} |}
           "secret").
  - discriminate.
  - reflexivity.
  - vm_compute. reflexivity.
  - vm_compute. reflexivity.
  - vm_compute. reflexivity.
Defined.

Lemma store_touched_once_witness :
  (RateLimit unreachable_registry (service_on empty_client) 0 0
     (api_request "/api/test" "secret")).1 = service_on empty_client.
Proof.
  apply (proj2 (proj2 (store_touched_once unreachable_registry (service_on empty_client)
                         0 0 (api_request "/api/test" "secret")))).
  vm_compute. reflexivity.
Defined.

Lemma handler_runs_only_when_admitted_witness :
  skipped (api_request "/api/test" "secret") \/
  exists record r,
    credential_of (api_request "/api/test" "secret") <> "" /\
    ValidateAPIKey (registry_of [stored_key "1" "secret" 10 60 true])
      (credential_of (api_request "/api/test" "secret")) = Ok record /\
    IsActive record = true /\
    (CheckRateLimit (service_on empty_client) 0 record).2 = Ok r /\
    Allowed r = true /\
    api_key (RateLimit (registry_of [stored_key "1" "secret" 10 60 true])
               (service_on empty_client) 0 0 (api_request "/api/test" "secret")).2
    = Some record /\
    ResponseHeader (RateLimit (registry_of [stored_key "1" "secret" 10 60 true])
                      (service_on empty_client) 0 0 (api_request "/api/test" "secret")).2
    = rate_limit_headers r /\
    Status (RateLimit (registry_of [stored_key "1" "secret" 10 60 true])
              (service_on empty_client) 0 0 (api_request "/api/test" "secret")).2
    = None.
Proof.
  apply (proj1 (handler_runs_only_when_admitted
                  (registry_of [stored_key "1" "secret" 10 60 true])
                  (service_on empty_client) 0 0 (api_request "/api/test" "secret"))).
  vm_compute. reflexivity.
Defined.

(** ** The registry, operation after operation *)

Lemma DeactivateAPIKey_db (s : APIKeyService) (now : Time) (apiKey : string) :
  db (DeactivateAPIKey s now apiKey).1
  = match fault (db s) with
    | Some _ => db s
    | None =>
        {| fault := None;
           api_keys := map (fun r => if String.eqb (KeyHash r) (hashAPIKey apiKey)
                                     then deactivated now r else r) (api_keys (db s)) |}
    end.
Proof.
  unfold DeactivateAPIKey, Exec_update. cbv zeta.
  destruct (fault (db s)); simpl; [reflexivity |].
  destruct (_ =? 0); reflexivity.
Qed.

Lemma find_after_deactivation (now : Time) (h h' : string) (rows : list APIKey) :
  List.find (fun r => String.eqb (KeyHash r) h' && IsActive r)
    (map (fun r => if String.eqb (KeyHash r) h then deactivated now r else r) rows)
  = if String.eqb h h' then None
    else List.find (fun r => String.eqb (KeyHash r) h' && IsActive r) rows.
Proof.
  induction rows as [| r rows IH]; simpl.
  - destruct (String.eqb h h'); reflexivity.
  - destruct (String.eqb_spec (KeyHash r) h) as [E | E]; simpl.
    + rewrite andb_false_r, IH. subst h.
      destruct (String.eqb (KeyHash r) h'); reflexivity.
    + rewrite IH. destruct (String.eqb_spec h h') as [E' | E']; [| reflexivity].
      subst h'. apply String.eqb_neq in E. rewrite E. reflexivity.
Qed.

(** X11. After a revocation the database answered, validating the same
    key fails with "invalid API key", whether the revocation found the key
    or reported it missing. *)
Theorem validate_after_deactivate (s : APIKeyService) (now : Time) (apiKey : string) :
  fault (db s) = None ->
  ValidateAPIKey (DeactivateAPIKey s now apiKey).1 apiKey = Err "invalid API key".
Proof.
  intros Hf. unfold ValidateAPIKey, QueryRow_Scan.
  rewrite DeactivateAPIKey_db, Hf. simpl.
  rewrite find_after_deactivation, String.eqb_refl. reflexivity.
Qed.

Lemma validate_after_deactivate_witness :
  ValidateAPIKey
    (DeactivateAPIKey (registry_of [stored_key "1" "secret" 10 60 true]) 5 "secret").1
    "secret"
  = Err "invalid API key".
Proof.
  apply (validate_after_deactivate (registry_of [stored_key "1" "secret" 10 60 true])
           5 "secret").
  reflexivity.
Defined.

(** X12. Revoking one key changes the validation of no key with another
    digest: such a key resolves to the same record, or fails with the same
    error, as before. *)
Theorem deactivate_leaves_other_keys (s : APIKeyService) (now : Time)
    (apiKey other : string) :
  hashAPIKey apiKey <> hashAPIKey other ->
  ValidateAPIKey (DeactivateAPIKey s now apiKey).1 other = ValidateAPIKey s other.
Proof.
  intros Hne. unfold ValidateAPIKey, QueryRow_Scan.
  rewrite DeactivateAPIKey_db.
  destruct (fault (db s)) eqn:Hf; [rewrite Hf; reflexivity |]. simpl.
  rewrite find_after_deactivation.
  apply String.eqb_neq in Hne. rewrite Hne. reflexivity.
Qed.

Lemma deactivate_leaves_other_keys_witness :
  ValidateAPIKey
    (DeactivateAPIKey
       (registry_of [stored_key "1" "secret" 10 60 true; stored_key "2" "other" 5 30 true])
       5 "secret").1
    "other"
  = ValidateAPIKey
      (registry_of [stored_key "1" "secret" 10 60 true; stored_key "2" "other" 5 30 true])
      "other".
Proof.
  apply (deactivate_leaves_other_keys
           (registry_of [stored_key "1" "secret" 10 60 true; stored_key "2" "other" 5 30 true])
           5 "secret" "other").
  vm_compute. congruence.
Defined.

(** ** Provisioning: the rest of api_key_service.go *)

Module api_key_service.

(** [t.Unix()] and [t.UnixNano()], the instant counted in nanoseconds from
    the Unix epoch: whole seconds, and the nanoseconds as an [int64]. *)
Definition Unix (t : Time) : Z := t / Second.
Definition UnixNano (t : Time) : Z := wrap64 t.

(** The verbs [%d] and [%x] of [fmt] on an [int64]: decimal and lowercase
    hexadecimal digits, after a minus sign for a negative number. *)
Definition format_d (n : Z) : string :=
  DecimalString.NilEmpty.string_of_int (Z.to_int n).
Definition format_x (n : Z) : string :=
  HexadecimalString.NilEmpty.string_of_int (Z.to_hex_int n).

(** [generateAPIKey], the clock read as [t1] and then as [t2]. *)
Definition generateAPIKey (t1 t2 : Time) : string :=
  "ak_" ++ format_d (Unix t1) ++ "_" ++ format_x (UnixNano t2).

Definition pg_integerb (x : Z) : bool := (- 2 ^ 31 <=? x) && (x <? 2 ^ 31).

(** The row an [INSERT] of the four columns makes: [id] is what
    [gen_random_uuid()] draws, [is_active] defaults to true, and both
    timestamps to the [NOW()] of the database. *)
Definition inserted_row (id keyHash name : string) (requests window : Z) (now : Time)
  : APIKey :=
  {| ID := id; KeyHash := keyHash; Name := name;
     RateLimitRequests := requests; RateLimitWindowSeconds := window;
     IsActive := true; CreatedAt := now; UpdatedAt := now |}.

Definition integer_out_of_range : error := "pq: value is out of range for type integer".
Definition unique_violation : error := "pq: duplicate key value violates unique constraint".

(** [db.QueryRow("INSERT INTO api_keys (...) VALUES (...) RETURNING id").Scan(&id)]
    under the constraints [InitSchema] declares: the two [INTEGER] columns
    hold 32-bit values, [key_hash] is [UNIQUE] and [id] is the primary key.
    The row goes after the rows of the table. What the server checks of
    the text of [name] (its encoding, its length) is not part of the
    model. *)
Definition QueryRow_insert (d : DB) (row : APIKey) : DB * (string + sql_error) :=
  match fault d with
  | Some e => (d, inr (ErrDriver e))
  | None =>
      if negb (pg_integerb (RateLimitRequests row) && pg_integerb (RateLimitWindowSeconds row))
      then (d, inr (ErrDriver integer_out_of_range))
      else if existsb (fun r => String.eqb (KeyHash r) (KeyHash row)
                                || String.eqb (ID r) (ID row)) (api_keys d)
      then (d, inr (ErrDriver unique_violation))
      else ({| fault := None; api_keys := api_keys d ++ [row] |}, inl (ID row))
  end.

(** [CreateAPIKey]. Beside its arguments it reads the clock twice ([t1],
    [t2]), and the database supplies [now] and [id]. *)
Definition CreateAPIKey (s : APIKeyService) (t1 t2 now : Time) (id : string)
    (name : string) (rateLimitRequests rateLimitWindowSeconds : Z)
  : APIKeyService * result string :=
  (* Generate a new API key *)
  let apiKey := generateAPIKey t1 t2 in
  let keyHash := hashAPIKey apiKey in
  match QueryRow_insert (db s)
          (inserted_row id keyHash name rateLimitRequests rateLimitWindowSeconds now) with
  | (d, inr err) =>
      ({| db := d |}, Err (wrap_error "failed to create API key" (sql_message err)))
  | (d, inl _) => ({| db := d |}, Ok apiKey)
  end.

End api_key_service.

Import api_key_service.

Arguments hashAPIKey : simpl never.
Arguments generateAPIKey : simpl never.

Example generateAPIKey_example :
  generateAPIKey 1762000000123456789 1762000000123456999
  = "ak_1762000000_1873e1aa2598cde7".
Proof. vm_compute. reflexivity. Qed.

Lemma find_app_Some {A} (p : A -> bool) (l l' : list A) (x : A) :
  List.find p l = Some x -> List.find p (l ++ l') = Some x.
Proof.
  induction l as [| y l IH]; simpl; [discriminate |].
  destruct (p y); [auto | exact IH].
Qed.

Lemma find_app_None {A} (p : A -> bool) (l l' : list A) :
  List.find p l = None -> List.find p (l ++ l') = List.find p l'.
Proof.
  induction l as [| y l IH]; simpl; [reflexivity |].
  destruct (p y); [discriminate | exact IH].
Qed.

Lemma find_fresh_digest (h : string) (rows : list APIKey) :
  existsb (fun r => String.eqb (KeyHash r) h) rows = false ->
  List.find (fun r => String.eqb (KeyHash r) h && IsActive r) rows = None.
Proof.
  induction rows as [| r rows IH]; simpl; [reflexivity |].
  intros H. apply orb_false_elim in H as [H1 H2]. rewrite H1. simpl. auto.
Qed.

Lemma existsb_or_false {A} (p q : A -> bool) (l : list A) :
  existsb (fun r => p r || q r) l = false -> existsb p l = false.
Proof.
  induction l as [| x l IH]; simpl; [reflexivity |].
  intros H. apply orb_false_elim in H as [H1 H2].
  apply orb_false_elim in H1 as [H1 _]. rewrite H1. simpl. auto.
Qed.

(** The two ways [CreateAPIKey] ends: an error and the table as it was,
    or the generated key and one row more. *)
Lemma CreateAPIKey_cases (s : APIKeyService) (t1 t2 now : Time) (id name : string)
    (requests window : Z) :
  (exists e,
     CreateAPIKey s t1 t2 now id name requests window
     = ({| db := db s |}, Err (wrap_error "failed to create API key" e))) \/
  (CreateAPIKey s t1 t2 now id name requests window
   = ({| db := {| fault := None;
                  api_keys := api_keys (db s)
                              ++ [inserted_row id (hashAPIKey (generateAPIKey t1 t2))
                                    name requests window now] |} |},
      Ok (generateAPIKey t1 t2)) /\
   fault (db s) = None /\
   existsb (fun r => String.eqb (KeyHash r) (hashAPIKey (generateAPIKey t1 t2)))
     (api_keys (db s)) = false /\
   pg_integerb requests && pg_integerb window = true).
Proof.
  unfold CreateAPIKey, QueryRow_insert. cbv zeta.
  cbn [inserted_row RateLimitRequests RateLimitWindowSeconds KeyHash ID].
  destruct (fault (db s)) as [e |].
  { left. exists e. reflexivity. }
  destruct (pg_integerb requests && pg_integerb window) eqn:Hpg; cbn [negb].
  2:{ left. exists integer_out_of_range. reflexivity. }
  destruct (existsb _ (api_keys (db s))) eqn:Ex.
  { left. exists unique_violation. reflexivity. }
  right. split; [reflexivity |]. split; [reflexivity |].
  split; [apply (existsb_or_false _ _ _ Ex) | reflexivity].
Qed.

Lemma APIKeyService_eta (s : APIKeyService) : {| db := db s |} = s.
Proof. destruct s. reflexivity. Qed.



(** X14. Creating a key invalidates no key: a key that validated before
    validates to the same record afterwards, whether or not the creation
    succeeded; and the validation of any key whose digest is not that of
    the new key is unchanged. *)
Theorem create_keeps_other_keys (s : APIKeyService) (t1 t2 now : Time) (id name : string)
    (requests window : Z) (other : string) :
  (forall r,
     ValidateAPIKey s other = Ok r ->
     ValidateAPIKey (CreateAPIKey s t1 t2 now id name requests window).1 other = Ok r) /\
  (hashAPIKey other <> hashAPIKey (generateAPIKey t1 t2) ->
   ValidateAPIKey (CreateAPIKey s t1 t2 now id name requests window).1 other
   = ValidateAPIKey s other).
Proof.
  destruct (CreateAPIKey_cases s t1 t2 now id name requests window)
    as [[e ->] | (-> & Hf & Hfresh & _)]; cbn [fst snd].
  { rewrite APIKeyService_eta. auto. }
  unfold ValidateAPIKey, QueryRow_Scan. cbv zeta. cbn [db fault api_keys]. rewrite Hf.
  split.
  - intros r.
    destruct (List.find _ (api_keys (db s))) as [row |] eqn:Ef; [| discriminate].
    intros [= ->]. rewrite (find_app_Some _ _ _ _ Ef). reflexivity.
  - intros Hne.
    destruct (List.find _ (api_keys (db s))) as [row |] eqn:Ef.
    + rewrite (find_app_Some _ _ _ _ Ef). reflexivity.
    + rewrite (find_app_None _ _ _ Ef).
      cbn [List.find inserted_row KeyHash IsActive].
      assert (E : String.eqb (hashAPIKey (generateAPIKey t1 t2)) (hashAPIKey other) = false).
      { apply String.eqb_neq. congruence. }
      rewrite E. reflexivity.
Qed.

Lemma create_keeps_other_keys_witness :
  ValidateAPIKey
    (CreateAPIKey (registry_of [stored_key "1" "secret" 10 60 true])
       1762000000123456789 1762000000123456999 7 "id-2" "client" 5 30).1
    "secret"
  = Ok (stored_key "1" "secret" 10 60 true).
Proof.
  apply (proj1 (create_keeps_other_keys (registry_of [stored_key "1" "secret" 10 60 true])
                  1762000000123456789 1762000000123456999 7 "id-2" "client" 5 30
                  "secret")).
  vm_compute. reflexivity.
Defined.

(** X15. [CreateAPIKey] never returns a key whose digest the table
    already holds, active or not: a key it returns did not validate
    before. A second creation at the same two clock readings, which
    generates the same key, fails and adds no row. *)
Theorem create_returns_fresh_key (s : APIKeyService) (t1 t2 now : Time) (id name : string)
    (requests window : Z) (apiKey : string) :
  (CreateAPIKey s t1 t2 now id name requests window).2 = Ok apiKey ->
  (forall r, In r (api_keys (db s)) -> KeyHash r <> hashAPIKey apiKey) /\
  ValidateAPIKey s apiKey = Err "invalid API key" /\
  (forall now' id' name' requests' window',
     exists e,
       CreateAPIKey (CreateAPIKey s t1 t2 now id name requests window).1
         t1 t2 now' id' name' requests' window'
       = ((CreateAPIKey s t1 t2 now id name requests window).1,
          Err (wrap_error "failed to create API key" e))).
Proof.
  destruct (CreateAPIKey_cases s t1 t2 now id name requests window)
    as [[e ->] | (-> & Hf & Hfresh & _)]; cbn [fst snd]; [discriminate |].
  intros [= <-].
  split; [| split].
  - intros r Hr Hh.
    assert (existsb (fun r => String.eqb (KeyHash r) (hashAPIKey (generateAPIKey t1 t2)))
              (api_keys (db s)) = true); [| congruence].
    apply existsb_exists. exists r. split; [exact Hr | apply String.eqb_eq, Hh].
  - unfold ValidateAPIKey, QueryRow_Scan. cbv zeta.
    rewrite Hf, (find_fresh_digest _ _ Hfresh). reflexivity.
  - intros now' id' name' requests' window'.
    match goal with |- context [CreateAPIKey ?s' t1 t2 now' id' name' requests' window'] =>
      destruct (CreateAPIKey_cases s' t1 t2 now' id' name' requests' window')
        as [[e ->] | (_ & _ & Hfresh' & _)]
    end.
    + exists e. reflexivity.
    + exfalso. cbn [db api_keys] in Hfresh'.
      rewrite existsb_app in Hfresh'. apply orb_false_elim in Hfresh' as [_ H].
      cbn [existsb inserted_row KeyHash] in H.
      rewrite String.eqb_refl in H. discriminate.
Qed.

Lemma create_returns_fresh_key_witness :
  ValidateAPIKey (registry_of []) "ak_1762000000_1873e1aa2598cde7" = Err "invalid API key".
Proof.
  apply (create_returns_fresh_key (registry_of []) 1762000000123456789 1762000000123456999
           7 "id-1" "client" 10 60 "ak_1762000000_1873e1aa2598cde7").
  vm_compute. reflexivity.
Defined.

Definition not_underscore (a : ascii) : bool := negb (Ascii.eqb a "_").

Lemma decimal_uint_no_underscore (d : Decimal.uint) :
  string_forall not_underscore (DecimalString.NilEmpty.string_of_uint d) = true.
Proof. induction d; simpl; auto. Qed.

Lemma format_d_no_underscore (n : Z) : string_forall not_underscore (format_d n) = true.
Proof.
  unfold format_d. destruct (Z.to_int n); simpl; apply decimal_uint_no_underscore.
Qed.

Lemma format_d_inj (a b : Z) : format_d a = format_d b -> a = b.
Proof.
  unfold format_d. intros H. apply DecimalZ.to_int_inj.
  apply (f_equal DecimalString.NilEmpty.int_of_string) in H.
  rewrite !DecimalString.NilEmpty.isi in H. congruence.
Qed.

Lemma format_x_inj (a b : Z) : format_x a = format_x b -> a = b.
Proof.
  unfold format_x. intros H. apply HexadecimalZ.to_int_inj.
  apply (f_equal HexadecimalString.NilEmpty.int_of_string) in H.
  rewrite !HexadecimalString.NilEmpty.isi in H. congruence.
Qed.

(** A text without underscore ends at the first underscore after it. *)
Lemma split_at_underscore (d d' h h' : string) :
  string_forall not_underscore d = true ->
  string_forall not_underscore d' = true ->
  d ++ String "_" h = d' ++ String "_" h' ->
  d = d' /\ h = h'.
Proof.
  revert d'. induction d as [| c d IH]; intros [| c' d'] Hd Hd'; simpl in *.
  - intros [= ->]. auto.
  - intros [= <- _]. discriminate.
  - intros [= -> _]. discriminate.
  - apply andb_true_iff in Hd as [_ Hd]. apply andb_true_iff in Hd' as [_ Hd'].
    intros [= -> H]. destruct (IH d' Hd Hd' H) as [-> ->]. auto.
Qed.

(** X16. A generated key is "ak_", the Unix second of the first clock
    reading in decimal, an underscore, and the Unix nanosecond count of the
    second reading in hexadecimal; two generated keys are equal exactly
    when those two numbers are: the key holds nothing but the time of its
    creation. *)
Theorem generateAPIKey_clock_only (t1 t2 t1' t2' : Time) :
  HasPrefix (generateAPIKey t1 t2) "ak_" = true /\
  (generateAPIKey t1 t2 = generateAPIKey t1' t2' <->
   Unix t1 = Unix t1' /\ UnixNano t2 = UnixNano t2').
Proof.
  unfold generateAPIKey. split.
  - unfold HasPrefix. cbn [String.append String.prefix].
    destruct (format_d (Unix t1) ++ "_" ++ format_x (UnixNano t2)); reflexivity.
  - split.
    + cbn [String.append]. intros [= H].
      apply split_at_underscore in H as [Hd Hx]; try apply format_d_no_underscore.
      split; [apply format_d_inj, Hd | apply format_x_inj, Hx].
    + intros [-> ->]. reflexivity.
Qed.

(** ** Package handlers *)

Module handlers.

(** The values of a [gin.H]. *)
#[local] Unset Elimination Schemes.
Inductive JSON : Type :=
| JString (s : string)
| JInt (n : Z)
| JBool (b : bool)
| JTime (t : Time)
| JObject (fields : list (string * JSON)).
#[local] Set Elimination Schemes.

(** [c.JSON(code, gin.H{...})]. *)
Record Response : Type := {
  Code : Z;
  H : list (string * JSON) }.

Record Handler (C : Type) : Type := {
  apiKeyService : APIKeyService;
  rateLimitService : RateLimitService C }.
Arguments apiKeyService {C} _.
Arguments rateLimitService {C} _.

Definition HealthCheck : Response :=
  {| Code := 200;
     H := [("status", JString "healthy"); ("service", JString "rate-limiter-api")] |}.

(** The request body of [CreateAPIKey], as [ShouldBindJSON] fills it. *)
Record CreateRequest : Type := {
  request_Name : string;
  request_RateLimitRequests : Z;
  request_RateLimitWindowSeconds : Z }.

(** [CreateAPIKey]; [bound] is what [c.ShouldBindJSON(&request)] made of
    the body, the other inputs are those of the service. *)
Definition CreateAPIKey {C} (h : Handler C) (t1 t2 now : Time) (id : string)
    (bound : result CreateRequest) : Handler C * Response :=
  match bound with
  | Err err =>
      (h, {| Code := 400;
             H := [("error", JString "Invalid request"); ("message", JString err)] |})
  | Ok request =>
      (* Set defaults if not provided *)
      let requests :=
        if request_RateLimitRequests request <=? 0 then 100
        else request_RateLimitRequests request in
      let window :=
        if request_RateLimitWindowSeconds request <=? 0 then 3600
        else request_RateLimitWindowSeconds request in
      match api_key_service.CreateAPIKey (apiKeyService h) t1 t2 now id
              (request_Name request) requests window with
      | (svc, Err err) =>
          ({| apiKeyService := svc; rateLimitService := rateLimitService h |},
           {| Code := 500;
              H := [("error", JString "Failed to create API key");
                    ("message", JString err)] |})
      | (svc, Ok apiKey) =>
          ({| apiKeyService := svc; rateLimitService := rateLimitService h |},
           {| Code := 201;
              H := [("api_key", JString apiKey);
                    ("name", JString (request_Name request));
                    ("rate_limit",
                     JObject [("requests", JInt requests);
                              ("window_seconds", JInt window)])] |})
      end
  end.

(** [DeactivateAPIKey]; [param] is [c.Param("key")]. *)
Definition DeactivateAPIKey {C} (h : Handler C) (now : Time) (param : string)
  : Handler C * Response :=
  let apiKey := param in
  if String.eqb apiKey "" then
    (h, {| Code := 400;
           H := [("error", JString "API key required");
                 ("message", JString "Please provide an API key in the URL path")] |})
  else
    match services.DeactivateAPIKey (apiKeyService h) now apiKey with
    | (svc, Some err) =>
        ({| apiKeyService := svc; rateLimitService := rateLimitService h |},
         {| Code := 404;
            H := [("error", JString "API key not found"); ("message", JString err)] |})
    | (svc, None) =>
        ({| apiKeyService := svc; rateLimitService := rateLimitService h |},
         {| Code := 200;
            H := [("message", JString "API key deactivated successfully")] |})
    end.

Definition not_in_context : Response :=
  {| Code := 401; H := [("error", JString "API key not found in context")] |}.

(** [GetStatus]; [ctx] is what [c.Get("api_key")] finds. *)
Definition GetStatus (ctx : option APIKey) : Response :=
  match ctx with
  | None => not_in_context
  | Some apiKeyRecord =>
      {| Code := 200;
         H := [("status", JString "authenticated");
               ("api_key",
                JObject [("id", JString (ID apiKeyRecord));
                         ("name", JString (Name apiKeyRecord))])] |}
  end.

(** [GetRateLimitStatus]. *)
Definition GetRateLimitStatus {C} `{ClientInterface C} (h : Handler C) (now : Time)
    (ctx : option APIKey) : Response :=
  match ctx with
  | None => not_in_context
  | Some apiKeyRecord =>
      match services.GetRateLimitStatus (rateLimitService h) now apiKeyRecord with
      | Err err =>
          {| Code := 500;
             H := [("error", JString "Failed to get rate limit status");
                   ("message", JString err)] |}
      | Ok rateLimitResult =>
          {| Code := 200;
             H := [("rate_limit",
                    JObject [("limit", JInt (Limit rateLimitResult));
                             ("remaining", JInt (Remaining rateLimitResult));
                             ("reset_time", JTime (ResetTime rateLimitResult));
                             ("allowed", JBool (Allowed rateLimitResult))])] |}
      end
  end.

(** [TestEndpoint]; [bound] is the [message] field [ShouldBindJSON] read,
    or its error. *)
Definition TestEndpoint (ctx : option APIKey) (bound : result string) : Response :=
  match ctx with
  | None => not_in_context
  | Some apiKeyRecord =>
      match bound with
      | Err err =>
          {| Code := 400;
             H := [("error", JString "Invalid request"); ("message", JString err)] |}
      | Ok message =>
          {| Code := 200;
             H := [("message", JString "Request processed successfully");
                   ("echo", JString message);
                   ("api_key",
                    JObject [("id", JString (ID apiKeyRecord));
                             ("name", JString (Name apiKeyRecord))])] |}
      end
  end.

End handlers.

(** ** The handlers *)

Lemma pg_integerb_spec (x : Z) : pg_integerb x = true <-> pg_integer x.
Proof.
  unfold pg_integerb, pg_integer. rewrite andb_true_iff, Z.leb_le, Z.ltb_lt. tauto.
Qed.

Lemma effective_quota_own (cfg : RateLimitConfig) (k : APIKey) :
  0 < RateLimitRequests k -> 0 < RateLimitWindowSeconds k ->
  effective_limit cfg k = RateLimitRequests k /\
  effective_window cfg k = RateLimitWindowSeconds k * Second.
Proof.
  intros Hl Hw. unfold effective_limit, effective_window.
  apply Z.ltb_lt in Hl, Hw. rewrite Hl, Hw. auto.
Qed.

(** X17. A key created through the [CreateAPIKey] handler is stored with
    a positive limit and a positive window, 100 and 3600 standing in for
    values that are not positive; the key of the 201 answer validates to
    that record, and for it the engine uses the stored limit and window,
    never the defaults of the process. *)
Theorem created_key_has_positive_quota {C} (h : handlers.Handler C) (t1 t2 now : Time)
    (id : string) (request : handlers.CreateRequest) :
  handlers.Code (handlers.CreateAPIKey h t1 t2 now id (Ok request)).2 = 201 ->
  exists apiKey record,
    handlers.H (handlers.CreateAPIKey h t1 t2 now id (Ok request)).2
    = [("api_key", handlers.JString apiKey);
       ("name", handlers.JString (Name record));
       ("rate_limit",
        handlers.JObject [("requests", handlers.JInt (RateLimitRequests record));
                          ("window_seconds",
                           handlers.JInt (RateLimitWindowSeconds record))])] /\
    ValidateAPIKey
      (handlers.apiKeyService (handlers.CreateAPIKey h t1 t2 now id (Ok request)).1) apiKey
    = Ok record /\
    Name record = handlers.request_Name request /\
    RateLimitRequests record
    = (if handlers.request_RateLimitRequests request <=? 0 then 100
       else handlers.request_RateLimitRequests request) /\
    RateLimitWindowSeconds record
    = (if handlers.request_RateLimitWindowSeconds request <=? 0 then 3600
       else handlers.request_RateLimitWindowSeconds request) /\
    0 < RateLimitRequests record /\
    0 < RateLimitWindowSeconds record /\
    schema_ok record /\
    forall cfg,
      effective_limit cfg record = RateLimitRequests record /\
      effective_window cfg record = RateLimitWindowSeconds record * Second.
Proof.
  unfold handlers.CreateAPIKey. cbv zeta.
  set (requests := if handlers.request_RateLimitRequests request <=? 0 then 100
                   else handlers.request_RateLimitRequests request).
  set (window := if handlers.request_RateLimitWindowSeconds request <=? 0 then 3600
                 else handlers.request_RateLimitWindowSeconds request).
  assert (Hr : 0 < requests).
  { unfold requests. destruct (Z.leb_spec (handlers.request_RateLimitRequests request) 0); lia. }
  assert (Hw : 0 < window).
  { unfold window.
    destruct (Z.leb_spec (handlers.request_RateLimitWindowSeconds request) 0); lia. }
  destruct (CreateAPIKey_cases (handlers.apiKeyService h) t1 t2 now id
              (handlers.request_Name request) requests window)
    as [[e ->] | (-> & Hf & Hfresh & Hpg)];
    cbn [snd fst handlers.Code handlers.H handlers.apiKeyService]; [discriminate |].
  intros _.
  exists (generateAPIKey t1 t2),
         (inserted_row id (hashAPIKey (generateAPIKey t1 t2))
            (handlers.request_Name request) requests window now).
  cbn [inserted_row Name RateLimitRequests RateLimitWindowSeconds].
  split; [reflexivity |]. split.
  { unfold ValidateAPIKey, QueryRow_Scan. cbv zeta. cbn [db fault api_keys].
    rewrite (find_app_None _ _ _ (find_fresh_digest _ _ Hfresh)).
    cbn [List.find inserted_row KeyHash IsActive].
    rewrite String.eqb_refl. reflexivity. }
  split; [reflexivity |]. split; [reflexivity |]. split; [reflexivity |].
  split; [exact Hr |]. split; [exact Hw |]. split.
  { apply andb_true_iff in Hpg as [H1 H2].
    split; cbn [RateLimitRequests RateLimitWindowSeconds]; apply pg_integerb_spec; assumption. }
  intros cfg. apply effective_quota_own; assumption.
Qed.

Lemma created_key_has_positive_quota_witness :
  exists apiKey record,
    handlers.H
      (handlers.CreateAPIKey
         {| handlers.apiKeyService := registry_of [];
            handlers.rateLimitService := service_on empty_client |}
         1762000000123456789 1762000000123456999 7 "id-1"
         (Ok {| handlers.request_Name := "client";
                handlers.request_RateLimitRequests := 0;
                handlers.request_RateLimitWindowSeconds := -5 |})).2
    = [("api_key", handlers.JString apiKey);
       ("name", handlers.JString (Name record));
       ("rate_limit",
        handlers.JObject [("requests", handlers.JInt (RateLimitRequests record));
                          ("window_seconds",
                           handlers.JInt (RateLimitWindowSeconds record))])] /\
    ValidateAPIKey
      (handlers.apiKeyService
         (handlers.CreateAPIKey
            {| handlers.apiKeyService := registry_of [];
               handlers.rateLimitService := service_on empty_client |}
            1762000000123456789 1762000000123456999 7 "id-1"
            (Ok {| handlers.request_Name := "client";
                   handlers.request_RateLimitRequests := 0;
                   handlers.request_RateLimitWindowSeconds := -5 |})).1) apiKey
    = Ok record /\
    Name record = "client" /\
    RateLimitRequests record = 100 /\
    RateLimitWindowSeconds record = 3600 /\
    0 < RateLimitRequests record /\
    0 < RateLimitWindowSeconds record /\
    schema_ok record /\
    forall cfg,
      effective_limit cfg record = RateLimitRequests record /\
      effective_window cfg record = RateLimitWindowSeconds record * Second.
Proof.
  apply (created_key_has_positive_quota
           {| handlers.apiKeyService := registry_of [];
              handlers.rateLimitService := service_on empty_client |}
           1762000000123456789 1762000000123456999 7 "id-1"
           {| handlers.request_Name := "client";
              handlers.request_RateLimitRequests := 0;
              handlers.request_RateLimitWindowSeconds := -5 |}).
  vm_compute. reflexivity.
Defined.

Lemma filter_existsb {A} (p : A -> bool) (l : list A) :
  (Z.of_nat (length (List.filter p l)) =? 0) = negb (existsb p l).
Proof.
  induction l as [| x l IH]; simpl; [reflexivity |].
  destruct (p x); simpl; [reflexivity | exact IH].
Qed.

(** The error of [DeactivateAPIKey], case by case. *)
Lemma DeactivateAPIKey_error (s : APIKeyService) (now : Time) (apiKey : string) :
  (DeactivateAPIKey s now apiKey).2
  = match fault (db s) with
    | Some e => Some (wrap_error "failed to deactivate API key" e)
    | None =>
        if existsb (fun r => String.eqb (KeyHash r) (hashAPIKey apiKey)) (api_keys (db s))
        then None else Some "API key not found"
    end.
Proof.
  unfold DeactivateAPIKey, Exec_update. cbv zeta.
  destruct (fault (db s)); [reflexivity |]. cbn [RowsAffected].
  rewrite filter_existsb. destruct (existsb _ _); reflexivity.
Qed.

(** X18. The [DeactivateAPIKey] handler answers 400 to an empty key and
    otherwise 200 or 404, never a 5xx: 200 exactly when the database
    answered and a row carries the digest of the key, and 404 for every
    error of the service, a database failure included, whose message it
    passes on. *)
Theorem deactivate_handler_codes {C} (h : handlers.Handler C) (now : Time) (param : string) :
  (param = "" ->
   handlers.DeactivateAPIKey h now param
   = (h, {| handlers.Code := 400;
            handlers.H :=
              [("error", handlers.JString "API key required");
               ("message",
                handlers.JString "Please provide an API key in the URL path")] |})) /\
  (param <> "" ->
   (handlers.Code (handlers.DeactivateAPIKey h now param).2 = 200 \/
    handlers.Code (handlers.DeactivateAPIKey h now param).2 = 404) /\
   (handlers.Code (handlers.DeactivateAPIKey h now param).2 = 200 <->
    fault (db (handlers.apiKeyService h)) = None /\
    exists r, In r (api_keys (db (handlers.apiKeyService h))) /\
              KeyHash r = hashAPIKey param) /\
   (forall e,
      fault (db (handlers.apiKeyService h)) = Some e ->
      (handlers.DeactivateAPIKey h now param).2
      = {| handlers.Code := 404;
           handlers.H :=
             [("error", handlers.JString "API key not found");
              ("message",
               handlers.JString (wrap_error "failed to deactivate API key" e))] |})).
Proof.
  unfold handlers.DeactivateAPIKey. cbv zeta. split.
  - intros ->. reflexivity.
  - intros Hne. apply String.eqb_neq in Hne. rewrite Hne.
    pose proof (DeactivateAPIKey_error (handlers.apiKeyService h) now param) as He.
    destruct (DeactivateAPIKey (handlers.apiKeyService h) now param) as [svc err].
    cbn [snd] in He. subst err.
    destruct (fault (db (handlers.apiKeyService h))) as [e |] eqn:Hf.
    + cbn [snd handlers.Code]. split; [auto |]. split.
      * split; [discriminate | intros [? _]; discriminate].
      * intros e' [= <-]. reflexivity.
    + destruct (existsb _ (api_keys (db (handlers.apiKeyService h)))) eqn:Ex;
        cbn [snd handlers.Code].
      * split; [auto |]. split; [| discriminate].
        split; [| reflexivity]. intros _. split; [reflexivity |].
        apply existsb_exists in Ex as (r & Hr & Hh). exists r.
        split; [exact Hr | apply String.eqb_eq, Hh].
      * split; [auto |]. split; [| discriminate].
        split; [discriminate |]. intros [_ (r & Hr & Hh)]. exfalso.
        assert (existsb (fun r => String.eqb (KeyHash r) (hashAPIKey param))
                  (api_keys (db (handlers.apiKeyService h))) = true); [| congruence].
        apply existsb_exists. exists r. split; [exact Hr | apply String.eqb_eq, Hh].
Qed.

Lemma deactivate_handler_codes_witness :
  handlers.DeactivateAPIKey
    {| handlers.apiKeyService := unreachable_registry;
       handlers.rateLimitService := service_on empty_client |} 5 ""
  = ({| handlers.apiKeyService := unreachable_registry;
        handlers.rateLimitService := service_on empty_client |},
     {| handlers.Code := 400;
        handlers.H :=
          [("error", handlers.JString "API key required");
           ("message", handlers.JString "Please provide an API key in the URL path")] |}) /\
  (handlers.DeactivateAPIKey
     {| handlers.apiKeyService := unreachable_registry;
        handlers.rateLimitService := service_on empty_client |} 5 "secret").2
  = {| handlers.Code := 404;
       handlers.H :=
         [("error", handlers.JString "API key not found");
          ("message",
           handlers.JString
             "failed to deactivate API key: dial tcp: connection refused")] |}.
Proof.
  split.
  - apply (proj1 (deactivate_handler_codes
                    {| handlers.apiKeyService := unreachable_registry;
                       handlers.rateLimitService := service_on empty_client |} 5 "")).
    reflexivity.
  - apply (proj2 (deactivate_handler_codes
                    {| handlers.apiKeyService := unreachable_registry;
                       handlers.rateLimitService := service_on empty_client |} 5 "secret")).
    + discriminate.
    + reflexivity.
Defined.

Lemma ValidateAPIKey_Ok_In (a : APIKeyService) (apiKey : string) (record : APIKey) :
  ValidateAPIKey a apiKey = Ok record -> In record (api_keys (db a)).
Proof.
  unfold ValidateAPIKey, QueryRow_Scan. destruct (fault (db a)); [discriminate |].
  destruct (List.find _ (api_keys (db a))) as [row |] eqn:Ef; [| discriminate].
  intros [= ->]. apply List.find_some in Ef as [Hin _]. exact Hin.
Qed.


(** What the middleware leaves when it lets a request through to the
    handler of a path that is not skipped. *)
Lemma RateLimit_admitted {C} `{!ClientInterface C} (a : APIKeyService)
    (svc : RateLimitService C) (now later : Time) (req : Request) :
  ~ skipped req ->
  NextCalled (RateLimit a svc now later req).2 = true ->
  exists record r,
    In record (api_keys (db a)) /\
    (CheckRateLimit svc now record).2 = Ok r /\
    RateLimit a svc now later req
    = ((CheckRateLimit svc now record).1, proceed (rate_limit_headers r) (Some record)).
Proof.
  intros Hs.
  destruct (String.eqb_spec (credential_of req) "") as [Hc | Hc].
  { rewrite (RateLimit_no_credential a svc now later req Hs Hc). discriminate. }
  destruct (ValidateAPIKey a (credential_of req)) as [record | e] eqn:Hv.
  - rewrite (RateLimit_checked a svc now later req record Hs Hc Hv).
    pose proof (ValidateAPIKey_Ok_In a _ record Hv) as Hin.
    destruct (CheckRateLimit svc now record) as [svc' [r | e]] eqn:Hchk;
      [destruct (Allowed r) |]; simpl; try discriminate.
    intros _. exists record, r. rewrite Hchk. auto.
  - rewrite (RateLimit_invalid a svc now later req e Hs Hc Hv). discriminate.
Qed.



(** X20. The handlers that read the credential from the context answer
    401 only when the context holds none: after the middleware has let a
    request to a path that is not skipped through, [GetStatus] answers 200
    with the ID and the name of a record of the table, and [TestEndpoint]
    answers 200 with the bound message, or 400 when the body did not bind. *)
Theorem context_handlers_after_admission {C} `{!ClientInterface C} (a : APIKeyService)
    (svc : RateLimitService C) (now later : Time) (req : Request) (bound : result string) :
  ~ skipped req ->
  NextCalled (RateLimit a svc now later req).2 = true ->
  exists record,
    In record (api_keys (db a)) /\
    handlers.GetStatus (api_key (RateLimit a svc now later req).2)
    = {| handlers.Code := 200;
         handlers.H :=
           [("status", handlers.JString "authenticated");
            ("api_key",
             handlers.JObject [("id", handlers.JString (ID record));
                               ("name", handlers.JString (Name record))])] |} /\
    handlers.Code (handlers.TestEndpoint (api_key (RateLimit a svc now later req).2) bound)
    = (if is_Ok bound then 200 else 400) /\
    (forall message,
       bound = Ok message ->
       In ("echo", handlers.JString message)
          (handlers.H (handlers.TestEndpoint
                         (api_key (RateLimit a svc now later req).2) bound))).
Proof.
  intros Hs Hnext.
  destruct (RateLimit_admitted a svc now later req Hs Hnext) as (record & r & Hin & _ & ->).
  exists record. cbn [snd proceed api_key]. split; [exact Hin |].
  split; [reflexivity |]. split.
  - destruct bound; reflexivity.
  - intros message ->. simpl. auto.
Qed.

Lemma context_handlers_after_admission_witness :
  exists record,
    In record (api_keys (db (registry_of [stored_key "1" "secret" 1 60 true]))) /\
    handlers.GetStatus
      (api_key (RateLimit (registry_of [stored_key "1" "secret" 1 60 true])
                  (service_on empty_client) 0 1 (api_request "/api/status" "secret")).2)
    = {| handlers.Code := 200;
         handlers.H :=
           [("status", handlers.JString "authenticated");
            ("api_key",
             handlers.JObject [("id", handlers.JString (ID record));
                               ("name", handlers.JString (Name record))])] |} /\
    handlers.Code
      (handlers.TestEndpoint
         (api_key (RateLimit (registry_of [stored_key "1" "secret" 1 60 true])
                     (service_on empty_client) 0 1 (api_request "/api/status" "secret")).2)
         (Ok "hello"))
    = (if is_Ok (Ok "hello" : result string) then 200 else 400) /\
    (forall message,
       Ok "hello" = Ok message ->
       In ("echo", handlers.JString message)
          (handlers.H
             (handlers.TestEndpoint
                (api_key (RateLimit (registry_of [stored_key "1" "secret" 1 60 true])
                            (service_on empty_client) 0 1
                            (api_request "/api/status" "secret")).2)
                (Ok "hello")))).
Proof.
  apply (context_handlers_after_admission
           (registry_of [stored_key "1" "secret" 1 60 true]) (service_on empty_client)
           0 1 (api_request "/api/status" "secret") (Ok "hello")).
  - unfold skipped. simpl. intros [H | H]; discriminate.
  - vm_compute. reflexivity.
Defined.

(** ** More on the engine *)

(** X7. A limit that is not positive is replaced by the default, and the
    default is used as it is: with a default that is not positive either,
    every request of such a credential that the store counts, from the
    first one on, is refused, and no status of it reports allowed. *)
Theorem nonpositive_default_refuses {C} `{!ClientInterface C} (s : RateLimitService C)
    (now : Time) (k : APIKey) (count : Z) :
  RateLimitRequests k <= 0 ->
  DefaultRequests (config s) <= 0 ->
  (forall w, (IncrementRateLimit (redisClient s) now (redisKey k) w).2 = Ok count) ->
  1 <= count ->
  (exists r,
     (CheckRateLimit s now k).2 = Ok r /\
     Limit r = DefaultRequests (config s) /\ Allowed r = false) /\
  (forall r,
     GetRateLimitCount (redisClient s) now (redisKey k) = Ok count \/
     (exists e, GetRateLimitCount (redisClient s) now (redisKey k) = Err e) ->
     GetRateLimitStatus s now k = Ok r ->
     Limit r = DefaultRequests (config s) /\ Allowed r = false).
Proof.
  intros Hl Hd Hincr Hc.
  assert (HL : effective_limit (config s) k = DefaultRequests (config s)).
  { unfold effective_limit. destruct (Z.ltb_spec 0 (RateLimitRequests k)); [lia | reflexivity]. }
  split.
  - destruct (CheckRateLimit_Ok s now k count Hincr) as (r & E & L & A & _).
    exists r. rewrite A, L, HL. split; [exact E |]. split; [reflexivity |].
    apply Z.leb_gt. lia.
  - intros r [Hget | [e Hget]] Hr.
    + destruct (GetRateLimitStatus_Ok s now k count Hget) as (r' & E & L & A & _).
      rewrite E in Hr. injection Hr as <-. rewrite A, L, HL.
      split; [reflexivity |]. apply Z.ltb_ge. lia.
    + destruct (GetRateLimitStatus_Err s now k e Hget) as (r' & E & L & A & _).
      rewrite E in Hr. injection Hr as <-. rewrite A, L, HL.
      split; [reflexivity |]. apply Z.ltb_ge. lia.
Qed.

Lemma nonpositive_default_refuses_witness :
  exists r,
    (CheckRateLimit
       {| redisClient := empty_client;
          config := {| DefaultRequests := 0; DefaultWindow := Hour |} |}
       0 (test_key 0 0)).2 = Ok r /\
    Limit r = 0 /\ Allowed r = false.
Proof.
  apply (proj1 (nonpositive_default_refuses
                  {| redisClient := empty_client;
                     config := {| DefaultRequests := 0; DefaultWindow := Hour |} |}
                  0 (test_key 0 0) 1
                  ltac:(vm_compute; congruence) ltac:(vm_compute; congruence)
                  ltac:(intros w; vm_compute; reflexivity)
                  ltac:(vm_compute; congruence))).
Defined.





(** ** The table keeps its keys unique *)

(** [key_hash] is [UNIQUE] and [id] is the primary key. *)
Definition unique_table (rows : list APIKey) : Prop :=
  List.NoDup (map KeyHash rows) /\ List.NoDup (map ID rows).

Lemma existsb_or_false_r {A} (p q : A -> bool) (l : list A) :
  existsb (fun r => p r || q r) l = false -> existsb q l = false.
Proof.
  induction l as [| x l IH]; simpl; [reflexivity |].
  intros H. apply orb_false_elim in H as [H1 H2].
  apply orb_false_elim in H1 as [_ H1]. rewrite H1. simpl. auto.
Qed.

Lemma existsb_eqb_not_in (f : APIKey -> string) (x : string) (rows : list APIKey) :
  existsb (fun r => String.eqb (f r) x) rows = false -> ~ In x (map f rows).
Proof.
  intros H Hin. apply in_map_iff in Hin as (r & <- & Hr).
  assert (existsb (fun r0 => String.eqb (f r0) (f r)) rows = true); [| congruence].
  apply existsb_exists. exists r. split; [exact Hr | apply String.eqb_refl].
Qed.

Lemma NoDup_snoc (l : list string) (x : string) :
  List.NoDup l -> ~ In x l -> List.NoDup (l ++ [x]).
Proof.
  induction l as [| y l IH]; simpl; intros Hl Hx.
  - constructor; [intros [] | constructor].
  - inversion Hl as [| ? ? Hy Hl']; subst. constructor.
    + rewrite in_app_iff. simpl. intros [H | [H | []]]; [contradiction |].
      apply Hx. auto.
    + apply IH; [exact Hl' |]. intros H. apply Hx. auto.
Qed.

Lemma deactivated_columns (now : Time) (h : string) (rows : list APIKey) :
  map KeyHash (map (fun r => if String.eqb (KeyHash r) h then deactivated now r else r) rows)
  = map KeyHash rows /\
  map ID (map (fun r => if String.eqb (KeyHash r) h then deactivated now r else r) rows)
  = map ID rows.
Proof.
  induction rows as [| r rows [IH1 IH2]]; simpl; [auto |].
  rewrite IH1, IH2. destruct (String.eqb (KeyHash r) h); auto.
Qed.

(** X22. Provisioning and revocation keep the digests and the IDs of
    the table pairwise distinct, whether they succeed or fail; a row with
    a given digest is then the only one, and it is the record the key
    validates to when it is active. *)
Theorem table_stays_unique (s : APIKeyService) (t1 t2 now : Time) (id name : string)
    (requests window : Z) (apiKey : string) :
  unique_table (api_keys (db s)) ->
  unique_table (api_keys (db (CreateAPIKey s t1 t2 now id name requests window).1)) /\
  unique_table (api_keys (db (DeactivateAPIKey s now apiKey).1)) /\
  (forall r r',
     In r (api_keys (db s)) -> In r' (api_keys (db s)) ->
     KeyHash r = KeyHash r' -> r = r') /\
  (forall r,
     fault (db s) = None -> In r (api_keys (db s)) ->
     KeyHash r = hashAPIKey apiKey -> IsActive r = true ->
     ValidateAPIKey s apiKey = Ok r).
Proof.
  intros [Hh Hi]. split; [| split; [| split]].
  - unfold CreateAPIKey, QueryRow_insert. cbv zeta.
    cbn [inserted_row RateLimitRequests RateLimitWindowSeconds KeyHash ID].
    destruct (fault (db s)); [split; assumption |].
    destruct (pg_integerb requests && pg_integerb window); cbn [negb];
      [| split; assumption].
    destruct (existsb _ (api_keys (db s))) eqn:Ex; [split; assumption |].
    cbn [fst db api_keys]. unfold unique_table. rewrite !map_app.
    cbn [map inserted_row KeyHash ID]. split; apply NoDup_snoc; try assumption.
    + apply (existsb_eqb_not_in KeyHash), (existsb_or_false _ _ _ Ex).
    + apply (existsb_eqb_not_in ID), (existsb_or_false_r _ _ _ Ex).
  - rewrite DeactivateAPIKey_db. destruct (fault (db s)); [split; assumption |].
    cbn [api_keys]. unfold unique_table.
    destruct (deactivated_columns now (hashAPIKey apiKey) (api_keys (db s))) as [-> ->].
    split; assumption.
  - intros r r'. revert Hh. generalize (api_keys (db s)) as rows.
    induction rows as [| x rows IH]; simpl; [intros _ [] |].
    intros Hn. inversion Hn as [| ? ? Hx Hn']; subst.
    intros [<- | Hr] [<- | Hr'] He; auto.
    + exfalso. apply Hx. rewrite He. apply in_map, Hr'.
    + exfalso. apply Hx. rewrite <- He. apply in_map, Hr.
  - intros r Hf Hr He Ha. unfold ValidateAPIKey, QueryRow_Scan. rewrite Hf. cbv zeta.
    destruct (List.find _ (api_keys (db s))) as [row |] eqn:Ef.
    + apply List.find_some in Ef as [Hrow Hp].
      apply andb_true_iff in Hp as [Hp _]. apply String.eqb_eq in Hp.
      f_equal. revert Hh Hr Hrow. generalize (api_keys (db s)) as rows.
      induction rows as [| x rows IH]; simpl; [intros _ [] |].
      intros Hn. inversion Hn as [| ? ? Hx Hn']; subst.
      intros [<- | Hr] [<- | Hrow]; auto.
      * exfalso. apply Hx. rewrite He, <- Hp. apply in_map, Hrow.
      * exfalso. apply Hx. rewrite Hp, <- He. apply in_map, Hr.
    + exfalso. apply (List.find_none _ _ Ef) in Hr.
      rewrite He, String.eqb_refl, Ha in Hr. discriminate.
Qed.

Lemma table_stays_unique_witness :
  unique_table
    (api_keys (db (CreateAPIKey (registry_of [stored_key "1" "secret" 10 60 true])
                     1762000000123456789 1762000000123456999 7 "id-2" "client" 5 30).1)) /\
  unique_table
    (api_keys (db (DeactivateAPIKey (registry_of [stored_key "1" "secret" 10 60 true])
                     7 "secret").1)).
Proof.
  assert (Hu : unique_table (api_keys (db (registry_of [stored_key "1" "secret" 10 60 true])))).
  { split; simpl; (constructor; [intros [] | constructor]). }
  destruct (table_stays_unique (registry_of [stored_key "1" "secret" 10 60 true])
              1762000000123456789 1762000000123456999 7 "id-2" "client" 5 30 "secret" Hu)
    as (H1 & H2 & _).
  split; [exact H1 | exact H2].
Defined.
